(** * Pricematch MCP worker: tools, outbound calls and the access gate

    A shallow embedding of [src/index.ts] (both variants of the worker: the
    one without inbound authentication and the one gated by [MCP_API_KEY]),
    followed by the properties established about it.

    JavaScript numbers are IEEE 754 binary64 values, hence Rocq's primitive
    floats.  JSON documents received from upstream are values of [JS.value];
    handlers run in a small monad that threads the log of outbound calls and
    carries JavaScript completions (normal return or thrown exception). *)

From Stdlib Require Import String Ascii List ZArith Bool Lia.
From Stdlib Require Import QArith Qround Floats.
Import ListNotations.

Local Open Scope string_scope.
Local Open Scope Z_scope.

(* ===================================================================== *)
(** ** The JavaScript runtime the program relies on *)
(* ===================================================================== *)

Module JS.

(** Exceptions the runtime can raise under the program's feet. *)
Inductive exn : Type :=
| TypeError      (* property read on null/undefined, failed ToPrimitive *)
| SyntaxError    (* [response.json()] on a malformed body *)
| FetchFailed.   (* [fetch] promise rejected: network failure *)

(** Completion of an expression or statement list. *)
Inductive Completion (A : Type) : Type :=
| Normal (a : A)
| Throw (e : exn).
Arguments Normal {A} a.
Arguments Throw {A} e.

(** JavaScript values as [JSON.parse] builds them, plus [undefined], which
    property reads produce.  An object is the list of its own properties
    (one entry per key, as the parser leaves them). *)
#[warnings="-register-all"]
Inductive value : Type :=
| VUndefined
| VNull
| VBool (b : bool)
| VNum (x : float)
| VStr (s : string)
| VArr (elems : list value)
| VObj (props : list (string * value)).

Definition nullish (v : value) : bool :=
  match v with VUndefined | VNull => true | _ => false end.

(** ToBoolean: [undefined], [null], [false], [+0], [-0], [NaN] and the
    empty string are falsy, everything else is truthy. *)
Definition truthy (v : value) : bool :=
  match v with
  | VUndefined | VNull => false
  | VBool b => b
  | VNum x => negb (PrimFloat.eqb x 0%float || PrimFloat.is_nan x)
  | VStr s => negb (String.eqb s "")
  | VArr _ | VObj _ => true
  end.

(** [a || b] on values already evaluated ([b] has no effect in this program). *)
Definition or_else (a b : value) : value := if truthy a then a else b.

Fixpoint own_property (k : string) (props : list (string * value)) : option value :=
  match props with
  | [] => None
  | (k', v) :: rest => if String.eqb k k' then Some v else own_property k rest
  end.

Definition digit_char (d : Z) : ascii :=
  ascii_of_nat (48 + Z.to_nat (d mod 10)).

(** The [k] decimal digits of [s], most significant first. *)
Fixpoint digits_of (k : nat) (s : Z) : string :=
  match k with
  | O => ""
  | S k' => String (digit_char (s / 10 ^ Z.of_nat k')) (digits_of k' s)
  end.

Definition decimal_width (n : Z) : nat :=
  if n <? 10 then 1%nat else if n <? 100 then 2%nat
  else if n <? 1000 then 3%nat else 4%nat.

(** Decimal rendering of a natural number below 10000 (exponents, indices). *)
Definition decimal (n : Z) : string := digits_of (decimal_width n) n.

(** [v.name] for a value that is neither [null] nor [undefined].  The names
    the program reads ([data], [url], [price]) are inherited from no
    prototype, so the own properties decide. *)
Definition member (v : value) (name : string) : value :=
  match v with
  | VObj props =>
      match own_property name props with Some x => x | None => VUndefined end
  | _ => VUndefined
  end.

(** [v[i]] for a value that is neither [null] nor [undefined]. *)
Definition element (v : value) (i : nat) : value :=
  match v with
  | VArr elems => nth i elems VUndefined
  | VObj props =>
      match own_property (decimal (Z.of_nat i)) props with
      | Some x => x
      | None => VUndefined
      end
  | VStr s =>
      match String.get i s with
      | Some c => VStr (String c "")
      | None => VUndefined
      end
  | _ => VUndefined
  end.

(** [v.name] in full: reading a property of [null] or [undefined] throws. *)
Definition get_member (v : value) (name : string) : Completion value :=
  if nullish v then Throw TypeError else Normal (member v name).

(** One link of an optional chain, [v?.rest]. *)
Definition optional (v : value) (rest : value -> value) : value :=
  if nullish v then VUndefined else rest v.

(** *** Number::toString, radix 10 *)

Definition Qpow (b e : Z) : Q := Qpower (inject_Z b) e.

Definition Qlt_bool (a b : Q) : bool := negb (Qle_bool b a).

(** The real number [m * 2^e] a finite binary64 value denotes. *)
Definition real_value (m : positive) (e : Z) : Q :=
  (inject_Z (Zpos m) * Qpow 2 e)%Q.

(** Ends of the interval of reals that round to [m * 2^e]: the midpoints
    towards the two neighbouring binary64 values. *)
Definition interval_lo (m : positive) (e : Z) : Q :=
  if (Zpos m =? 2 ^ 52) && (-1074 <? e)
  then (inject_Z (4 * Zpos m - 1) * Qpow 2 (e - 2))%Q
  else (inject_Z (4 * Zpos m - 2) * Qpow 2 (e - 2))%Q.

Definition interval_hi (m : positive) (e : Z) : Q :=
  (inject_Z (4 * Zpos m + 2) * Qpow 2 (e - 2))%Q.

(** Round-to-nearest, ties to even: the ends belong to the interval when
    the significand is even. *)
Definition rounds_to (m : positive) (e : Z) (d : Q) : bool :=
  if Z.even (Zpos m)
  then Qle_bool (interval_lo m e) d && Qle_bool d (interval_hi m e)
  else Qlt_bool (interval_lo m e) d && Qlt_bool d (interval_hi m e).

(** The least [n], from the given start, with [v < 10^n]. *)
Fixpoint decimal_exponent (fuel : nat) (n : Z) (v : Q) : Z :=
  match fuel with
  | O => n
  | S fuel' =>
      if Qlt_bool v (Qpow 10 n) then n
      else decimal_exponent fuel' (n + 1) v
  end.

(** Step 5 of Number::toString: the digits [s], their number [k] and the
    exponent [n] with [s * 10^(n-k)] rounding to the value, [k] least, and
    among those [s] the one nearest to the value (the even one on a tie). *)
Fixpoint shortest (fuel k : nat) (m : positive) (e n0 : Z) : nat * Z * Z :=
  let v := real_value m e in
  let q := n0 - Z.of_nat k in
  let c_lo := Qfloor (v / Qpow 10 q) in
  let c_hi := c_lo + 1 in
  let d_lo := (inject_Z c_lo * Qpow 10 q)%Q in
  let d_hi := (inject_Z c_hi * Qpow 10 q)%Q in
  let pick (c : Z) :=
    if c =? 10 ^ Z.of_nat k then (k, 10 ^ (Z.of_nat k - 1), n0 + 1)
    else (k, c, n0) in
  match rounds_to m e d_lo, rounds_to m e d_hi with
  | true, true =>
      match Qcompare (v - d_lo) (d_hi - v) with
      | Lt => pick c_lo
      | Gt => pick c_hi
      | Eq => if Z.even c_lo then pick c_lo else pick c_hi
      end
  | true, false => pick c_lo
  | false, true => pick c_hi
  | false, false =>
      match fuel with
      | O => pick c_lo
      | S fuel' => shortest fuel' (S k) m e n0
      end
  end.

Fixpoint zeros (n : nat) : string :=
  match n with O => "" | S n' => String "0" (zeros n') end.

(** Steps 6 to 10 of Number::toString on the digit string. *)
Definition format (ds : string) (k n : Z) : string :=
  if (k <=? n) && (n <=? 21) then ds ++ zeros (Z.to_nat (n - k))
  else if (0 <? n) && (n <=? 21) then
    substring 0 (Z.to_nat n) ds ++ "." ++
    substring (Z.to_nat n) (Z.to_nat (k - n)) ds
  else if (-6 <? n) && (n <=? 0) then "0." ++ zeros (Z.to_nat (- n)) ++ ds
  else
    let mantissa :=
      match ds with
      | String c EmptyString => String c ""
      | String c rest => String c ("." ++ rest)
      | EmptyString => ""
      end in
    mantissa ++ "e" ++ (if n - 1 <? 0 then "-" else "+") ++ decimal (Z.abs (n - 1)).

(** A lower estimate of the decimal exponent of [m * 2^e], from the
    position [b] of its leading bit: [b * log10 2], rounded down, less one. *)
Definition exponent_estimate (m : positive) (e : Z) : Z :=
  (Z.log2 (Zpos m) + e) * 30103 / 100000 - 1.

Definition positive_toString (m : positive) (e : Z) : string :=
  let n0 := decimal_exponent 8 (exponent_estimate m e) (real_value m e) in
  let '(k, s, n) := shortest 16 1 m e n0 in
  format (digits_of k s) (Z.of_nat k) n.

Definition number_toString (x : float) : string :=
  match Prim2SF x with
  | S754_nan => "NaN"
  | S754_zero _ => "0"
  | S754_infinity false => "Infinity"
  | S754_infinity true => "-Infinity"
  | S754_finite false m e => positive_toString m e
  | S754_finite true m e => "-" ++ positive_toString m e
  end.

(** *** ToString on values, the [String(v)] call *)

Definition join_sep (acc piece : string) (first : bool) : string :=
  if first then piece else acc ++ "," ++ piece.

(** An object parsed from JSON stringifies through [Object.prototype.toString]
    unless it carries an own [toString] property; that property cannot be
    callable, [valueOf] then yields the object itself, and ToPrimitive
    throws.  Arrays stringify through [join], which renders [null] and
    [undefined] elements as empty. *)
Fixpoint ToString (v : value) : Completion string :=
  match v with
  | VUndefined => Normal "undefined"
  | VNull => Normal "null"
  | VBool true => Normal "true"
  | VBool false => Normal "false"
  | VNum x => Normal (number_toString x)
  | VStr s => Normal s
  | VArr elems =>
      (fix join (l : list value) (acc : string) (first : bool) : Completion string :=
         match l with
         | [] => Normal acc
         | e :: rest =>
             match (if nullish e then Normal "" else ToString e) with
             | Normal piece => join rest (join_sep acc piece first) false
             | Throw x => Throw x
             end
         end) elems "" true
  | VObj props =>
      match own_property "toString" props with
      | Some _ => Throw TypeError
      | None => Normal "[object Object]"
      end
  end.

(** [s.replace(pattern, replacement)] with a string pattern: the first
    occurrence only (the replacement used by the program is empty, so no
    [$] pattern is involved). *)
Fixpoint replace (pattern replacement s : string) : string :=
  if String.prefix pattern s
  then replacement ++
       substring (String.length pattern)
                 (String.length s - String.length pattern) s
  else match s with
       | EmptyString => s
       | String c s' => String c (replace pattern replacement s')
       end.

Definition startsWith (s p : string) : bool := String.prefix p s.

End JS.


(* ===================================================================== *)
(** ** Outbound HTTP calls *)
(* ===================================================================== *)

Module Outbound.

(** What the program hands to the global [fetch].  [body] is the object
    given to [JSON.stringify]. *)
Record Request : Type := {
  url : string;
  method : string;
  headers : list (string * string);
  body : JS.value
}.

(** What the program reads of a response: its status, and what
    [response.json()] resolves to ([None] when the body is not JSON and the
    promise rejects). *)
Record Response : Type := {
  status : Z;
  json : option JS.value
}.

(** [response.ok]: the status is in the range 200 to 299. *)
Definition ok (r : Response) : bool :=
  (200 <=? status r) && (status r <=? 299).

(** How a [fetch] promise settles. *)
Inductive Outcome : Type :=
| Rejected
| Resolved (r : Response).

(** The outside world: the outcome of a call, given the calls made so far. *)
Definition Transport : Type := list Request -> Request -> Outcome.

End Outbound.

(* ===================================================================== *)
(** ** Handler bodies: outbound-call log and completions *)
(* ===================================================================== *)

Module Async.

Import JS.

(** An async function body: from the log of outbound calls so far to its
    completion and the extended log.  The log survives a throw. *)
Definition t (A : Type) : Type :=
  list Outbound.Request -> Completion A * list Outbound.Request.

Definition ret {A} (a : A) : t A := fun log => (Normal a, log).

Definition throw {A} (e : exn) : t A := fun log => (Throw e, log).

Definition bind {A B} (c : t A) (k : A -> t B) : t B :=
  fun log =>
    match c log with
    | (Normal a, log') => k a log'
    | (Throw e, log') => (Throw e, log')
    end.

(** [try { body } catch (error) { handler }] *)
Definition try_catch {A} (body : t A) (handler : exn -> t A) : t A :=
  fun log =>
    match body log with
    | (Normal a, log') => (Normal a, log')
    | (Throw e, log') => handler e log'
    end.

Definition lift {A} (c : Completion A) : t A := fun log => (c, log).

(** [fetch(url, init)]: the call is issued and logged, a promise comes back. *)
Definition fetch (transport : Outbound.Transport) (request : Outbound.Request)
  : t Outbound.Outcome :=
  fun log => (Normal (transport log request), (log ++ [request])%list).

(** [await Promise.all([p1, p2])] *)
Definition await_all (p1 p2 : Outbound.Outcome)
  : t (Outbound.Response * Outbound.Response) :=
  match p1, p2 with
  | Outbound.Resolved r1, Outbound.Resolved r2 => ret (r1, r2)
  | _, _ => throw FetchFailed
  end.

(** [await p] *)
Definition await (p : Outbound.Outcome) : t Outbound.Response :=
  match p with
  | Outbound.Resolved r => ret r
  | Outbound.Rejected => throw FetchFailed
  end.

(** [await response.json()] *)
Definition await_json (r : Outbound.Response) : t value :=
  match Outbound.json r with
  | Some v => ret v
  | None => throw SyntaxError
  end.

End Async.

Declare Scope async_scope.
Delimit Scope async_scope with async.
Notation "x <- c ;; k" := (Async.bind c (fun x => k))
  (at level 61, c at next level, right associativity) : async_scope.
Notation "' pat <- c ;; k" := (Async.bind c (fun x => match x with pat => k end))
  (at level 61, pat pattern, c at next level, right associativity) : async_scope.

(* ===================================================================== *)
(** ** The tools registered by [MyMCP.init] *)
(* ===================================================================== *)

Module Tools.

Import JS.
Local Open Scope async_scope.

(** [{ type: "text", text: ... }].  [find_product_urls] stores in [text]
    whatever value its [||] expression yields, hence a [value]. *)
Record ContentItem : Type := {
  type : string;
  text : value
}.

Record ToolResult : Type := {
  content : list ContentItem
}.

Definition text_item (v : value) : ContentItem :=
  {| type := "text"; text := v |}.

(** A result made of text items, at least one. *)
Definition text_only (result : ToolResult) : Prop :=
  content result <> [] /\
  Forall (fun item => type item = "text") (content result).

(** The [operation] enum of [calculate]. *)
Inductive Operation : Type :=
| op_add
| op_subtract
| op_multiply
| op_divide.

(** A tool call whose arguments passed the input schema of the tool. *)
Inductive ToolInvocation : Type :=
| call_find_product_urls (productName : string)
| call_extract_product_price (productUrl : string)
| call_add (a b : float)
| call_calculate (operation : Operation) (a b : float).

(** The value of an environment variable in a template literal. *)
Definition interpolate (x : option string) : string :=
  match x with Some s => s | None => "undefined" end.

(** [!x] for an environment variable: unset or empty. *)
Definition not_set (x : option string) : bool :=
  match x with Some s => String.eqb s "" | None => true end.

(** [walmartData.data?.[0]?.url] *)
Definition first_result_url (response_data : value) : Completion value :=
  match get_member response_data "data" with
  | Normal d =>
      Normal (optional d (fun d =>
              optional (element d 0) (fun r => member r "url")))
  | Throw e => Throw e
  end.

(** [extractedData.data?.price] *)
Definition extracted_price (extractedData : value) : Completion value :=
  match get_member extractedData "data" with
  | Normal d => Normal (optional d (fun d => member d "price"))
  | Throw e => Throw e
  end.

Section Init.

(** The constant [firecrawlApiKey] of [init], read from
    [env.FIRECRAWL_API_KEY] in the first variant and from
    [this.env.FIRECRAWL_API_KEY] in the second ([None]: not set), and the
    outside world.  The handlers are the same text in both variants. *)
Variable firecrawlApiKey : option string.
Variable transport : Outbound.Transport.

Definition firecrawlApiHeaders : list (string * string) :=
  [ ("Content-Type", "application/json");
    ("Authorization", "Bearer " ++ interpolate firecrawlApiKey) ].

(** The search call scoped to one retail site; the query is the template
    literal [`site:${site} ${productName}`] with the site written out. *)
Definition search_request (site productName : string) : Outbound.Request :=
  {| Outbound.url := "https://api.firecrawl.dev/v0/search";
     Outbound.method := "POST";
     Outbound.headers := firecrawlApiHeaders;
     Outbound.body := VObj [("query", VStr ("site:" ++ site ++ " " ++ productName))] |}.

Definition extract_request (productUrl : string) : Outbound.Request :=
  {| Outbound.url := "https://api.firecrawl.dev/v0/extract";
     Outbound.method := "POST";
     Outbound.headers := firecrawlApiHeaders;
     Outbound.body :=
       VObj [ ("url", VStr productUrl);
              ("extractor",
               VObj [ ("mode", VStr "llm-extraction");
                      ("extraction_schema",
                       VObj [ ("type", VStr "object");
                              ("properties",
                               VObj [ ("price",
                                       VObj [ ("type", VStr "string");
                                              ("description",
                                               VStr "The numerical price of the product, without currency symbols.") ]) ]);
                              ("required", VArr [VStr "price"]) ]) ]) ] |}.

(** Tool: find product URLs on Walmart and Target. *)
Definition find_product_urls (productName : string) : Async.t ToolResult :=
  if not_set firecrawlApiKey then
    Async.ret {| content := [text_item (VStr "Error: Firecrawl API key is not configured.")] |}
  else
    Async.try_catch
      (p1 <- Async.fetch transport (search_request "walmart.com" productName) ;;
       p2 <- Async.fetch transport (search_request "target.com" productName) ;;
       ' (walmartResponse, targetResponse) <- Async.await_all p1 p2 ;;
       if negb (Outbound.ok walmartResponse) || negb (Outbound.ok targetResponse) then
         Async.ret {| content := [text_item (VStr "Error fetching data from Firecrawl.")] |}
       else
         walmartData <- Async.await_json walmartResponse ;;
         targetData <- Async.await_json targetResponse ;;
         u1 <- Async.lift (first_result_url walmartData) ;;
         let walmartUrl := or_else u1 (VStr "Walmart URL Not Found") in
         u2 <- Async.lift (first_result_url targetData) ;;
         let targetUrl := or_else u2 (VStr "Target URL Not Found") in
         Async.ret {| content := [text_item walmartUrl; text_item targetUrl] |})
      (fun error =>
         Async.ret {| content := [text_item (VStr "An unexpected error occurred.")] |}).

(** Tool: extract the price from a product page URL. *)
Definition extract_product_price (productUrl : string) : Async.t ToolResult :=
  if not_set firecrawlApiKey then
    Async.ret {| content := [text_item (VStr "Error: Firecrawl API key is not configured.")] |}
  else
    Async.try_catch
      (p <- Async.fetch transport (extract_request productUrl) ;;
       response <- Async.await p ;;
       if negb (Outbound.ok response) then
         Async.ret {| content := [text_item (VStr "Error extracting price from URL.")] |}
       else
         extractedData <- Async.await_json response ;;
         x <- Async.lift (extracted_price extractedData) ;;
         let price := or_else x (VStr "Price not found") in
         s <- Async.lift (ToString price) ;;
         Async.ret {| content := [text_item (VStr s)] |})
      (fun error =>
         Async.ret {| content := [text_item (VStr "An unexpected error occurred while extracting the price.")] |}).

(** Simple addition tool. *)
Definition add (a b : float) : Async.t ToolResult :=
  s <- Async.lift (ToString (VNum (a + b)%float)) ;;
  Async.ret {| content := [text_item (VStr s)] |}.

(** Calculator tool with multiple operations. *)
Definition calculate (operation : Operation) (a b : float) : Async.t ToolResult :=
  let finish (result : float) : Async.t ToolResult :=
    s <- Async.lift (ToString (VNum result)) ;;
    Async.ret {| content := [text_item (VStr s)] |} in
  match operation with
  | op_add => finish (a + b)%float
  | op_subtract => finish (a - b)%float
  | op_multiply => finish (a * b)%float
  | op_divide =>
      if PrimFloat.eqb b 0%float then
        Async.ret {| content := [text_item (VStr "Error: Cannot divide by zero")] |}
      else finish (a / b)%float
  end.

(** The registry: the handler registered under the tool's name. *)
Definition dispatch (call : ToolInvocation) : Async.t ToolResult :=
  match call with
  | call_find_product_urls productName => find_product_urls productName
  | call_extract_product_price productUrl => extract_product_price productUrl
  | call_add a b => add a b
  | call_calculate operation a b => calculate operation a b
  end.

End Init.

End Tools.

(* ===================================================================== *)
(** ** The worker's [fetch] entry point, in its two variants *)
(* ===================================================================== *)

Module Worker.

(** The parts of the inbound request the entry point reads: the method,
    [new URL(request.url).pathname], and the header entries (names in lower
    case, one entry per name, as a [Headers] object holds them). *)
Record Request : Type := {
  method : string;
  pathname : string;
  headers : list (string * string)
}.

Record Env : Type := {
  FIRECRAWL_API_KEY : option string;
  MCP_API_KEY : option string          (* read by the gated variant only *)
}.

(** What the entry point returns: a response of its own making, or the
    response of the SDK's handler for the path, behind which tool calls are
    dispatched to the handlers of [Tools]. *)
Inductive Reply : Type :=
| Respond (body : string) (status : Z) (headers : list (string * string))
| ServeSSE (path : string)
| Serve (path : string).

Definition reaches_dispatch (r : Reply) : bool :=
  match r with
  | Respond _ _ _ => false
  | ServeSSE _ | Serve _ => true
  end.

(** [request.headers.get(name)]; [None] is [null]. *)
Fixpoint headers_get (hs : list (string * string)) (name : string) : option string :=
  match hs with
  | [] => None
  | (n, v) :: rest => if String.eqb name n then Some v else headers_get rest name
  end.

(** The routing shared by the two variants. *)
Definition route (request : Request) : Reply :=
  if String.eqb (pathname request) "/sse" || JS.startsWith (pathname request) "/sse/"
  then ServeSSE "/sse"
  else if String.eqb (pathname request) "/mcp"
  then Serve "/mcp"
  else Respond "Not found" 404 [].

Module Authless.

Definition fetch (request : Request) (env : Env) : Reply := route request.

End Authless.

Module Gated.

(** [request.headers.get('api-key') ||
     request.headers.get('authorization')?.replace('Bearer ', '')];
    [None] is [undefined] (the expression never yields [null]). *)
Definition apiKey (request : Request) : option string :=
  let bearer :=
    match headers_get (headers request) "authorization" with
    | Some a => Some (JS.replace "Bearer " "" a)
    | None => None
    end in
  match headers_get (headers request) "api-key" with
  | Some k => if String.eqb k "" then bearer else Some k
  | None => bearer
  end.

(** [a !== b] on values that are strings or [undefined]. *)
Definition strict_neq (a b : option string) : bool :=
  match a, b with
  | Some x, Some y => negb (String.eqb x y)
  | None, None => false
  | _, _ => true
  end.

Definition unauthorized : Reply :=
  Respond "Unauthorized: Invalid or missing API key" 401
    [ ("Access-Control-Allow-Origin", "*");
      ("Access-Control-Allow-Headers", "Content-Type, api-key, Authorization");
      ("Access-Control-Allow-Methods", "GET, POST, OPTIONS") ].

Definition fetch (request : Request) (env : Env) : Reply :=
  let expectedApiKey := MCP_API_KEY env in
  if negb (String.eqb (method request) "OPTIONS")
     && strict_neq (apiKey request) expectedApiKey
  then unauthorized
  else route request.

End Gated.

End Worker.

(* ===================================================================== *)
(** ** Upstream documents and scripted transports *)
(* ===================================================================== *)

Module Upstream.

Import JS.

(** The search API answers with an object whose [data] field is an array of
    results, each optionally carrying [url]: the [url] property of the first
    result, when the document has that shape and the property is there. *)
Definition carried_url (doc : value) : option value :=
  match doc with
  | VObj props =>
      match own_property "data" props with
      | Some (VArr (VObj result :: _)) => own_property "url" result
      | _ => None
      end
  | _ => None
  end.

(** The extraction API answers with an object whose [data] field is an
    object optionally carrying [price]. *)
Definition carried_price (doc : value) : option value :=
  match doc with
  | VObj props =>
      match own_property "data" props with
      | Some (VObj extracted) => own_property "price" extracted
      | _ => None
      end
  | _ => None
  end.

Definition search_doc (url : value) : value :=
  VObj [("data", VArr [VObj [("url", url)]])].

Definition extract_doc (price : value) : value :=
  VObj [("data", VObj [("price", price)])].

(** A response with the given status and JSON body. *)
Definition respond (status : Z) (doc : value) : Outbound.Outcome :=
  Outbound.Resolved {| Outbound.status := status; Outbound.json := Some doc |}.

(** The transport that settles the i-th outbound call as the i-th entry of
    a script says, and rejects any call beyond the script. *)
Definition scripted (script : list Outbound.Outcome) : Outbound.Transport :=
  fun log _ => nth (List.length log) script Outbound.Rejected.

(** First character of a string. *)
Definition head (s : string) : option ascii :=
  match s with EmptyString => None | String c _ => Some c end.

End Upstream.

(* ===================================================================== *)
(** ** Vocabulary of the further properties *)
(* ===================================================================== *)

Module Vocabulary.

(** [s.includes(p)]: [p] occurs somewhere in [s]. *)
Fixpoint includes (s p : string) : bool :=
  if String.prefix p s then true
  else match s with
       | EmptyString => false
       | String _ s' => includes s' p
       end.

(** The paths the worker hands to the SDK: [/sse], anything under [/sse/],
    and [/mcp]. *)
Definition served_path (pathname : string) : Prop :=
  pathname = "/sse" \/ (exists rest, pathname = "/sse/" ++ rest) \/ pathname = "/mcp".

(** A binary64 value that is a number, not an infinity and not NaN. *)
Definition finite (x : float) : Prop :=
  match Prim2SF x with
  | S754_zero _ | S754_finite _ _ _ => True
  | S754_infinity _ | S754_nan => False
  end.

(** A call to the Firecrawl API on behalf of the configured key. *)
Definition firecrawl_call (key : option string) (r : Outbound.Request) : Prop :=
  String.prefix "https://api.firecrawl.dev/v0/" (Outbound.url r) = true
  /\ Outbound.method r = "POST"
  /\ In ("Authorization", "Bearer " ++ Tools.interpolate key) (Outbound.headers r).

(** Both search calls came back, successful, with JSON bodies other than
    [null]: the condition under which [find_product_urls] reaches its last
    [return]. *)
Definition both_results (o1 o2 : Outbound.Outcome) : Prop :=
  exists w t walmartData targetData,
    o1 = Outbound.Resolved w /\ o2 = Outbound.Resolved t
    /\ Outbound.ok w = true /\ Outbound.ok t = true
    /\ Outbound.json w = Some walmartData /\ Outbound.json t = Some targetData
    /\ JS.nullish walmartData = false /\ JS.nullish targetData = false.

End Vocabulary.

(* ===================================================================== *)
(** * Properties *)
(* ===================================================================== *)

Import JS Tools Upstream.

(** ** Number rendering never looks like the divide-by-zero notice *)

Lemma head_app s1 s2 :
  head (s1 ++ s2) = match head s1 with Some c => Some c | None => head s2 end.
Proof. destruct s1; reflexivity. Qed.

Lemma digit_char_not_E d : digit_char d <> "E"%char.
Proof.
  unfold digit_char.
  assert (H : (Z.to_nat (d mod 10) < 10)%nat)
    by (pose proof (Z.mod_pos_bound d 10); lia).
  remember (Z.to_nat (d mod 10)) as r eqn:E. clear E.
  do 10 (destruct r as [|r]; [ discriminate | ]). lia.
Qed.

Lemma head_digits_of k s : head (digits_of k s) <> Some "E"%char.
Proof.
  destruct k; cbn [digits_of head]; [discriminate|].
  intros [= H]. exact (digit_char_not_E _ H).
Qed.

Lemma head_zeros n : head (zeros n) <> Some "E"%char.
Proof. destruct n; cbn; discriminate. Qed.

Lemma head_substring0 n ds :
  head (substring 0 n ds) = match n with O => None | S _ => head ds end.
Proof. destruct n, ds; reflexivity. Qed.

Lemma head_format ds k n :
  head ds <> Some "E"%char -> head (format ds k n) <> Some "E"%char.
Proof.
  intros H. unfold format.
  destruct ((k <=? n) && (n <=? 21)).
  { rewrite head_app. destruct (head ds); [exact H | apply head_zeros]. }
  destruct ((0 <? n) && (n <=? 21)).
  { rewrite head_app, head_substring0.
    destruct (Z.to_nat n); [cbn; discriminate|].
    destruct (head ds); [exact H | cbn; discriminate]. }
  destruct ((-6 <? n) && (n <=? 0)); [cbn; discriminate|].
  rewrite head_app.
  destruct ds as [|c [|c' rest]]; cbn [head] in *; try exact H.
  cbn. discriminate.
Qed.

Lemma head_positive_toString m e :
  head (positive_toString m e) <> Some "E"%char.
Proof.
  unfold positive_toString.
  destruct (shortest _ _ _ _ _) as [[k s] n].
  apply head_format, head_digits_of.
Qed.

Lemma number_toString_not_notice x :
  number_toString x <> "Error: Cannot divide by zero".
Proof.
  intros H. apply (f_equal head) in H. revert H.
  unfold number_toString.
  destruct (Prim2SF x) as [s|s| |s m e];
    try (destruct s); try (cbn; discriminate).
  intros H; exact (head_positive_toString m e H).
Qed.

(** [b === 0] holds of the two zeros of binary64 and of nothing else. *)
Lemma strict_eq_zero (b : float) :
  PrimFloat.eqb b 0%float = true <-> (b = 0%float \/ b = (-0)%float).
Proof.
  split.
  - intros H. rewrite eqb_spec in H.
    rewrite <- (SF2Prim_Prim2SF b).
    destruct (Prim2SF b) as [[|]|[|]| |[|] m e];
      try discriminate H; [right|left]; reflexivity.
  - intros [-> | ->]; reflexivity.
Qed.

Lemma float_neq_by_rendering (x y : float) :
  number_toString x <> number_toString y -> x <> y.
Proof. intros H ->. now apply H. Qed.

(** ** Arithmetic tools *)

(** C1.  [calculate] with operation [divide]: when [b] is not a zero the
    result is the single text item that renders the binary64 quotient [a / b];
    when [b] is a zero (of either sign) it is the single text item with the
    fixed notice.  Both are normal returns, no call goes out, and the notice
    is the rendering of no number. *)
Theorem calculate_divide :
  forall a b log,
    (b <> 0%float -> b <> (-0)%float ->
     calculate op_divide a b log =
       (Normal {| content := [text_item (VStr (number_toString (a / b)))] |}, log))
    /\ (b = 0%float \/ b = (-0)%float ->
        calculate op_divide a b log =
          (Normal {| content := [text_item (VStr "Error: Cannot divide by zero")] |}, log))
    /\ (forall x, number_toString x <> "Error: Cannot divide by zero").
Proof.
  intros a b log.
  split; [|split].
  - intros Hp Hn.
    unfold calculate.
    destruct (PrimFloat.eqb b 0) eqn:E.
    + apply strict_eq_zero in E. destruct E; contradiction.
    + reflexivity.
  - intros Hz. apply strict_eq_zero in Hz.
    unfold calculate. rewrite Hz. reflexivity.
  - exact number_toString_not_notice.
Qed.

Lemma calculate_divide_witness :
  calculate op_divide 6 3 [] =
    (Normal {| content := [text_item (VStr "2")] |}, [])
  /\ calculate op_divide 1 (-0) [] =
       (Normal {| content := [text_item (VStr "Error: Cannot divide by zero")] |}, []).
Proof.
  destruct (calculate_divide 6 3 []) as [Hq _].
  destruct (calculate_divide 1 (-0) []) as [_ [Hz _]].
  split.
  - rewrite Hq.
    + vm_compute. reflexivity.
    + apply float_neq_by_rendering. vm_compute. discriminate.
    + apply float_neq_by_rendering. vm_compute. discriminate.
  - apply Hz. right. reflexivity.
Defined.

(** C8.  [add] and [calculate] with operation [add] return the same result:
    the single text item rendering the binary64 sum [a + b]. *)
Theorem add_agrees_with_calculate_add :
  forall a b log,
    add a b log = calculate op_add a b log
    /\ add a b log =
         (Normal {| content := [text_item (VStr (number_toString (a + b)))] |}, log).
Proof.
  intros. split; reflexivity.
Qed.

(** ** What the handlers of the two upstream tools compute *)

Lemma ok_true_iff r :
  Outbound.ok r = true <-> 200 <= Outbound.status r <= 299.
Proof. unfold Outbound.ok. rewrite andb_true_iff, !Z.leb_le. tauto. Qed.

Lemma ok_false_iff r :
  Outbound.ok r = false <-> ~ (200 <= Outbound.status r <= 299).
Proof. rewrite <- ok_true_iff. destruct (Outbound.ok r); split; congruence. Qed.

Lemma not_set_iff key : not_set key = true <-> key = None \/ key = Some "".
Proof.
  destruct key as [s|]; cbn; [|tauto].
  rewrite String.eqb_eq. split; [intros ->; now right | intros [H|[= ->]]; congruence].
Qed.

Lemma first_result_url_carried doc u :
  carried_url doc = Some u -> first_result_url doc = Normal u.
Proof.
  unfold carried_url, first_result_url, get_member, member.
  destruct doc as [ | | | | | |props]; try discriminate.
  cbn [nullish].
  destruct (own_property "data" props)
    as [[ | | | | |[|[ | | | | | |result] rest]| ]|]; try discriminate.
  cbn. now intros ->.
Qed.

Lemma extracted_price_carried doc p :
  carried_price doc = Some p -> extracted_price doc = Normal p.
Proof.
  unfold carried_price, extracted_price, get_member, member.
  destruct doc as [ | | | | | |props]; try discriminate.
  cbn [nullish].
  destruct (own_property "data" props) as [[ | | | | | |extracted]|];
    try discriminate.
  cbn. now intros ->.
Qed.

Lemma first_result_url_not_null doc :
  nullish doc = false -> exists u, first_result_url doc = Normal u.
Proof.
  intros H. unfold first_result_url, get_member. rewrite H. eauto.
Qed.

Section SettledCalls.

Variables (key : option string) (transport : Outbound.Transport).
Variable log : list Outbound.Request.
Hypothesis configured : not_set key = false.

(** [find_product_urls] once both promises have resolved. *)
Lemma find_product_urls_settled productName w t :
  transport log (search_request key "walmart.com" productName) = Outbound.Resolved w ->
  transport (log ++ [search_request key "walmart.com" productName])%list
            (search_request key "target.com" productName) = Outbound.Resolved t ->
  find_product_urls key transport productName log =
    (Normal
       (if negb (Outbound.ok w) || negb (Outbound.ok t)
        then {| content := [text_item (VStr "Error fetching data from Firecrawl.")] |}
        else
          match Outbound.json w, Outbound.json t with
          | Some walmartData, Some targetData =>
              match first_result_url walmartData, first_result_url targetData with
              | Normal u1, Normal u2 =>
                  {| content := [text_item (or_else u1 (VStr "Walmart URL Not Found"));
                                 text_item (or_else u2 (VStr "Target URL Not Found"))] |}
              | _, _ => {| content := [text_item (VStr "An unexpected error occurred.")] |}
              end
          | _, _ => {| content := [text_item (VStr "An unexpected error occurred.")] |}
          end),
     (log ++ [search_request key "walmart.com" productName;
              search_request key "target.com" productName])%list).
Proof.
  intros Hw Ht.
  unfold find_product_urls. rewrite configured.
  unfold Async.try_catch, Async.bind, Async.fetch.
  rewrite Hw, Ht. cbn [Async.await_all Async.ret].
  rewrite <- app_assoc. cbn [app].
  destruct (negb (Outbound.ok w) || negb (Outbound.ok t)); [reflexivity|].
  unfold Async.await_json, Async.lift, Async.ret, Async.throw.
  destruct (Outbound.json w) as [wd|]; [|reflexivity].
  destruct (Outbound.json t) as [td|]; [|reflexivity].
  destruct (first_result_url wd); [|reflexivity].
  destruct (first_result_url td); reflexivity.
Qed.

(** [extract_product_price] once the promise has resolved. *)
Lemma extract_product_price_settled productUrl r :
  transport log (extract_request key productUrl) = Outbound.Resolved r ->
  extract_product_price key transport productUrl log =
    (Normal
       (if negb (Outbound.ok r)
        then {| content := [text_item (VStr "Error extracting price from URL.")] |}
        else
          match Outbound.json r with
          | Some extractedData =>
              match extracted_price extractedData with
              | Normal x =>
                  match ToString (or_else x (VStr "Price not found")) with
                  | Normal s => {| content := [text_item (VStr s)] |}
                  | Throw _ =>
                      {| content := [text_item (VStr "An unexpected error occurred while extracting the price.")] |}
                  end
              | Throw _ =>
                  {| content := [text_item (VStr "An unexpected error occurred while extracting the price.")] |}
              end
          | None =>
              {| content := [text_item (VStr "An unexpected error occurred while extracting the price.")] |}
          end),
     (log ++ [extract_request key productUrl])%list).
Proof.
  intros Hr.
  unfold extract_product_price. rewrite configured.
  unfold Async.try_catch, Async.bind, Async.fetch.
  rewrite Hr. cbn [Async.await Async.ret].
  destruct (negb (Outbound.ok r)); [reflexivity|].
  unfold Async.await_json, Async.lift, Async.ret, Async.throw.
  destruct (Outbound.json r) as [d|]; [|reflexivity].
  destruct (extracted_price d) as [x|]; [|reflexivity].
  destruct (ToString (or_else x (VStr "Price not found"))); reflexivity.
Qed.

End SettledCalls.

(** C4.  With [FIRECRAWL_API_KEY] not configured (unset, or set to the empty
    string), [find_product_urls] and [extract_product_price] return the
    configuration-missing text item and leave the log of outbound calls as it
    was: no call is made. *)
Theorem missing_credential_short_circuits :
  forall key transport productName productUrl log,
    key = None \/ key = Some "" ->
    find_product_urls key transport productName log =
      (Normal {| content := [text_item (VStr "Error: Firecrawl API key is not configured.")] |}, log)
    /\ extract_product_price key transport productUrl log =
         (Normal {| content := [text_item (VStr "Error: Firecrawl API key is not configured.")] |}, log).
Proof.
  intros key transport productName productUrl log H.
  apply not_set_iff in H.
  unfold find_product_urls, extract_product_price. rewrite H.
  split; reflexivity.
Qed.

Lemma missing_credential_short_circuits_witness :
  find_product_urls None (scripted [respond 200 (search_doc (VStr "https://www.walmart.com/ip/1"))])
      "Echo Dot" [] =
    (Normal {| content := [text_item (VStr "Error: Firecrawl API key is not configured.")] |}, [])
  /\ extract_product_price None (scripted [respond 200 (search_doc (VStr "https://www.walmart.com/ip/1"))])
       "https://example.com/p/123" [] =
     (Normal {| content := [text_item (VStr "Error: Firecrawl API key is not configured.")] |}, []).
Proof.
  apply (missing_credential_short_circuits None). left. reflexivity.
Defined.

(** C3.  When both search calls have resolved and at least one of the two
    responses has a status outside 200..299, [find_product_urls] returns
    exactly one text item, the fetch error, whatever the other response
    holds. *)
Theorem find_product_urls_upstream_failure :
  forall key transport productName log w t,
    not_set key = false ->
    transport log (search_request key "walmart.com" productName) = Outbound.Resolved w ->
    transport (log ++ [search_request key "walmart.com" productName])%list
              (search_request key "target.com" productName) = Outbound.Resolved t ->
    ~ (200 <= Outbound.status w <= 299) \/ ~ (200 <= Outbound.status t <= 299) ->
    find_product_urls key transport productName log =
      (Normal {| content := [text_item (VStr "Error fetching data from Firecrawl.")] |},
       (log ++ [search_request key "walmart.com" productName;
                search_request key "target.com" productName])%list).
Proof.
  intros key transport productName log w t Hkey Hw Ht Hstatus.
  rewrite (find_product_urls_settled key transport log Hkey productName w t Hw Ht).
  assert (E : negb (Outbound.ok w) || negb (Outbound.ok t) = true).
  { rewrite <- !ok_false_iff in Hstatus.
    destruct Hstatus as [-> | ->]; cbn; auto using orb_true_r. }
  now rewrite E.
Qed.

Lemma find_product_urls_upstream_failure_witness :
  find_product_urls (Some "fc-key")
      (scripted [respond 200 (search_doc (VStr "https://www.walmart.com/ip/1"));
                 respond 503 VNull])
      "Echo Dot" [] =
    (Normal {| content := [text_item (VStr "Error fetching data from Firecrawl.")] |},
     [search_request (Some "fc-key") "walmart.com" "Echo Dot";
      search_request (Some "fc-key") "target.com" "Echo Dot"]).
Proof.
  apply (find_product_urls_upstream_failure (Some "fc-key") _ "Echo Dot" []
           {| Outbound.status := 200;
              Outbound.json := Some (search_doc (VStr "https://www.walmart.com/ip/1")) |}
           {| Outbound.status := 503; Outbound.json := Some VNull |}).
  - reflexivity.
  - reflexivity.
  - reflexivity.
  - right. cbn. lia.
Defined.

(** C5 does not hold for every [url] field: both calls succeed, both first
    results carry [url], the Walmart one being the empty string; the first
    item returned is the sentinel, not that field. *)
Lemma find_product_urls_empty_url_counterexample :
  carried_url (search_doc (VStr "")) = Some (VStr "")
  /\ carried_url (search_doc (VStr "https://www.target.com/p/echo-dot")) =
       Some (VStr "https://www.target.com/p/echo-dot")
  /\ fst (find_product_urls (Some "fc-key")
            (scripted [respond 200 (search_doc (VStr ""));
                       respond 200 (search_doc (VStr "https://www.target.com/p/echo-dot"))])
            "Echo Dot" []) =
       Normal {| content := [text_item (VStr "Walmart URL Not Found");
                             text_item (VStr "https://www.target.com/p/echo-dot")] |}
  /\ fst (find_product_urls (Some "fc-key")
            (scripted [respond 200 (search_doc (VStr ""));
                       respond 200 (search_doc (VStr "https://www.target.com/p/echo-dot"))])
            "Echo Dot" []) <>
       Normal {| content := [text_item (VStr "");
                             text_item (VStr "https://www.target.com/p/echo-dot")] |}.
Proof.
  repeat split; try reflexivity.
  vm_compute. discriminate.
Qed.

(** C5, amended.  When both search calls succeed and the first element of
    each [data] array carries a truthy [url] (any non-empty string is), the
    result holds exactly two text items: the Walmart url first, the Target
    url second. *)
Theorem find_product_urls_two_urls :
  forall key transport productName log w t walmartData targetData u1 u2,
    not_set key = false ->
    transport log (search_request key "walmart.com" productName) = Outbound.Resolved w ->
    transport (log ++ [search_request key "walmart.com" productName])%list
              (search_request key "target.com" productName) = Outbound.Resolved t ->
    Outbound.ok w = true -> Outbound.ok t = true ->
    Outbound.json w = Some walmartData -> Outbound.json t = Some targetData ->
    carried_url walmartData = Some u1 -> carried_url targetData = Some u2 ->
    truthy u1 = true -> truthy u2 = true ->
    find_product_urls key transport productName log =
      (Normal {| content := [text_item u1; text_item u2] |},
       (log ++ [search_request key "walmart.com" productName;
                search_request key "target.com" productName])%list).
Proof.
  intros key transport productName log w t walmartData targetData u1 u2
         Hkey Hw Ht Hokw Hokt Hjw Hjt Hu1 Hu2 Ht1 Ht2.
  rewrite (find_product_urls_settled key transport log Hkey productName w t Hw Ht).
  rewrite Hokw, Hokt, Hjw, Hjt. cbn [negb orb].
  rewrite (first_result_url_carried _ _ Hu1), (first_result_url_carried _ _ Hu2).
  unfold or_else. now rewrite Ht1, Ht2.
Qed.

Lemma find_product_urls_two_urls_witness :
  find_product_urls (Some "fc-key")
      (scripted [respond 200 (search_doc (VStr "https://www.walmart.com/ip/echo-dot"));
                 respond 200 (search_doc (VStr "https://www.target.com/p/echo-dot"))])
      "Echo Dot" [] =
    (Normal {| content := [text_item (VStr "https://www.walmart.com/ip/echo-dot");
                           text_item (VStr "https://www.target.com/p/echo-dot")] |},
     [search_request (Some "fc-key") "walmart.com" "Echo Dot";
      search_request (Some "fc-key") "target.com" "Echo Dot"]).
Proof.
  apply (find_product_urls_two_urls (Some "fc-key") _ "Echo Dot" []
           {| Outbound.status := 200;
              Outbound.json := Some (search_doc (VStr "https://www.walmart.com/ip/echo-dot")) |}
           {| Outbound.status := 200;
              Outbound.json := Some (search_doc (VStr "https://www.target.com/p/echo-dot")) |}
           (search_doc (VStr "https://www.walmart.com/ip/echo-dot"))
           (search_doc (VStr "https://www.target.com/p/echo-dot")));
    reflexivity.
Defined.

(** C6 does not hold for every [price] field: the call succeeds and the body
    carries [price], the empty string; the item returned is the sentinel, not
    that string. *)
Lemma extract_product_price_empty_price_counterexample :
  carried_price (extract_doc (VStr "")) = Some (VStr "")
  /\ ToString (VStr "") = Normal ""
  /\ fst (extract_product_price (Some "fc-key")
            (scripted [respond 200 (extract_doc (VStr ""))])
            "https://example.com/p/123" []) =
       Normal {| content := [text_item (VStr "Price not found")] |}
  /\ fst (extract_product_price (Some "fc-key")
            (scripted [respond 200 (extract_doc (VStr ""))])
            "https://example.com/p/123" []) <>
       Normal {| content := [text_item (VStr "")] |}.
Proof.
  repeat split; try reflexivity.
  vm_compute. discriminate.
Qed.

(** C6, amended.  When the extraction call succeeds and the body carries a
    truthy [price] on which [String] completes (it does on every string,
    number and boolean), the result holds exactly one text item, [String] of
    that field: for a string, the string itself. *)
Theorem extract_product_price_returns_price :
  forall key transport productUrl log r extractedData price s,
    not_set key = false ->
    transport log (extract_request key productUrl) = Outbound.Resolved r ->
    Outbound.ok r = true ->
    Outbound.json r = Some extractedData ->
    carried_price extractedData = Some price ->
    truthy price = true ->
    ToString price = Normal s ->
    extract_product_price key transport productUrl log =
      (Normal {| content := [text_item (VStr s)] |},
       (log ++ [extract_request key productUrl])%list)
    /\ (forall str, price = VStr str -> s = str).
Proof.
  intros key transport productUrl log r extractedData price s
         Hkey Hr Hok Hj Hp Ht Hs.
  split.
  - rewrite (extract_product_price_settled key transport log Hkey productUrl r Hr).
    rewrite Hok, Hj. cbn [negb].
    rewrite (extracted_price_carried _ _ Hp).
    unfold or_else. now rewrite Ht, Hs.
  - intros str ->. cbn in Hs. congruence.
Qed.

Lemma extract_product_price_returns_price_witness :
  extract_product_price (Some "fc-key")
      (scripted [respond 200 (extract_doc (VStr "49.99"))])
      "https://example.com/p/123" [] =
    (Normal {| content := [text_item (VStr "49.99")] |},
     [extract_request (Some "fc-key") "https://example.com/p/123"]).
Proof.
  apply (extract_product_price_returns_price (Some "fc-key") _
           "https://example.com/p/123" []
           {| Outbound.status := 200;
              Outbound.json := Some (extract_doc (VStr "49.99")) |}
           (extract_doc (VStr "49.99")) (VStr "49.99") "49.99");
    reflexivity.
Defined.

(** A price that is a number is rendered by Number::toString; a price object
    with an own [toString] property makes [String] throw, and the handler
    answers with its generic failure text. *)
Example extract_product_price_number_and_unprintable :
  fst (extract_product_price (Some "fc-key")
         (scripted [respond 200 (extract_doc (VNum 49.5))])
         "https://example.com/p/123" []) =
    Normal {| content := [text_item (VStr "49.5")] |}
  /\ fst (extract_product_price (Some "fc-key")
            (scripted [respond 200 (extract_doc (VObj [("toString", VNum 1)]))])
            "https://example.com/p/123" []) =
       Normal {| content :=
                   [text_item (VStr "An unexpected error occurred while extracting the price.")] |}.
Proof. split; vm_compute; reflexivity. Qed.

(** C9.  A field that is there but falsy gets the sentinel.  In
    [find_product_urls], with both calls successful and both bodies parsed,
    an empty-string [url] on the first result of a site yields that site's
    sentinel in that site's position (the other site's document being any
    JSON value but [null], on which the property read throws).  In
    [extract_product_price], a [price] that is the empty string, the number
    0, [null] or [false] yields the price sentinel. *)
Theorem falsy_fields_fall_back_to_sentinels :
  (forall key transport productName log w t walmartData targetData,
      not_set key = false ->
      transport log (search_request key "walmart.com" productName) = Outbound.Resolved w ->
      transport (log ++ [search_request key "walmart.com" productName])%list
                (search_request key "target.com" productName) = Outbound.Resolved t ->
      Outbound.ok w = true -> Outbound.ok t = true ->
      Outbound.json w = Some walmartData -> Outbound.json t = Some targetData ->
      (carried_url walmartData = Some (VStr "") -> nullish targetData = false ->
       exists other,
         fst (find_product_urls key transport productName log) =
           Normal {| content := [text_item (VStr "Walmart URL Not Found"); other] |})
      /\ (carried_url targetData = Some (VStr "") -> nullish walmartData = false ->
          exists other,
            fst (find_product_urls key transport productName log) =
              Normal {| content := [other; text_item (VStr "Target URL Not Found")] |}))
  /\ (forall key transport productUrl log r extractedData price,
         not_set key = false ->
         transport log (extract_request key productUrl) = Outbound.Resolved r ->
         Outbound.ok r = true ->
         Outbound.json r = Some extractedData ->
         carried_price extractedData = Some price ->
         price = VStr "" \/ price = VNum 0 \/ price = VNull \/ price = VBool false ->
         fst (extract_product_price key transport productUrl log) =
           Normal {| content := [text_item (VStr "Price not found")] |}).
Proof.
  split.
  - intros key transport productName log w t walmartData targetData
           Hkey Hw Ht Hokw Hokt Hjw Hjt.
    rewrite (find_product_urls_settled key transport log Hkey productName w t Hw Ht).
    rewrite Hokw, Hokt, Hjw, Hjt. cbn [negb orb fst].
    split; intros Hurl Hother.
    + rewrite (first_result_url_carried _ _ Hurl).
      destruct (first_result_url_not_null _ Hother) as [u ->].
      eexists. reflexivity.
    + rewrite (first_result_url_carried _ _ Hurl).
      destruct (first_result_url_not_null _ Hother) as [u ->].
      eexists. reflexivity.
  - intros key transport productUrl log r extractedData price
           Hkey Hr Hok Hj Hp Hfalsy.
    rewrite (extract_product_price_settled key transport log Hkey productUrl r Hr).
    rewrite Hok, Hj. cbn [negb fst].
    rewrite (extracted_price_carried _ _ Hp).
    destruct Hfalsy as [-> | [-> | [-> | ->]]]; reflexivity.
Qed.

Lemma falsy_fields_fall_back_to_sentinels_witness :
  fst (find_product_urls (Some "fc-key")
         (scripted [respond 200 (search_doc (VStr ""));
                    respond 200 (search_doc (VStr "https://www.target.com/p/echo-dot"))])
         "Echo Dot" []) =
    Normal {| content := [text_item (VStr "Walmart URL Not Found");
                          text_item (VStr "https://www.target.com/p/echo-dot")] |}
  /\ fst (find_product_urls (Some "fc-key")
            (scripted [respond 200 (search_doc (VStr "https://www.walmart.com/ip/echo-dot"));
                       respond 200 (search_doc (VStr ""))])
            "Echo Dot" []) =
       Normal {| content := [text_item (VStr "https://www.walmart.com/ip/echo-dot");
                             text_item (VStr "Target URL Not Found")] |}
  /\ fst (extract_product_price (Some "fc-key")
            (scripted [respond 200 (extract_doc (VNum 0))])
            "https://example.com/p/123" []) =
       Normal {| content := [text_item (VStr "Price not found")] |}.
Proof.
  destruct falsy_fields_fall_back_to_sentinels as [Hurl Hprice].
  split; [|split].
  - destruct (Hurl (Some "fc-key")
                (scripted [respond 200 (search_doc (VStr ""));
                           respond 200 (search_doc (VStr "https://www.target.com/p/echo-dot"))])
                "Echo Dot" []
                {| Outbound.status := 200; Outbound.json := Some (search_doc (VStr "")) |}
                {| Outbound.status := 200;
                   Outbound.json := Some (search_doc (VStr "https://www.target.com/p/echo-dot")) |}
                (search_doc (VStr ""))
                (search_doc (VStr "https://www.target.com/p/echo-dot"))
                eq_refl eq_refl eq_refl eq_refl eq_refl eq_refl eq_refl) as [Hwalmart _].
    destruct (Hwalmart eq_refl eq_refl) as [other Hother].
    rewrite Hother in *. vm_compute in Hother.
    injection Hother as <-. reflexivity.
  - destruct (Hurl (Some "fc-key")
                (scripted [respond 200 (search_doc (VStr "https://www.walmart.com/ip/echo-dot"));
                           respond 200 (search_doc (VStr ""))])
                "Echo Dot" []
                {| Outbound.status := 200;
                   Outbound.json := Some (search_doc (VStr "https://www.walmart.com/ip/echo-dot")) |}
                {| Outbound.status := 200; Outbound.json := Some (search_doc (VStr "")) |}
                (search_doc (VStr "https://www.walmart.com/ip/echo-dot"))
                (search_doc (VStr ""))
                eq_refl eq_refl eq_refl eq_refl eq_refl eq_refl eq_refl) as [_ Htarget].
    destruct (Htarget eq_refl eq_refl) as [other Hother].
    rewrite Hother in *. vm_compute in Hother.
    injection Hother as <-. reflexivity.
  - apply (Hprice (Some "fc-key") _ "https://example.com/p/123" []
             {| Outbound.status := 200; Outbound.json := Some (extract_doc (VNum 0)) |}
             (extract_doc (VNum 0)) (VNum 0)); try reflexivity.
    right. left. reflexivity.
Defined.

(** Absent fields get the same sentinels: with both search calls successful
    and both [data] arrays empty the two sentinels come back, and a body
    whose [data] has no [price] yields the price sentinel. *)
Lemma absent_fields_get_sentinels :
  fst (find_product_urls (Some "fc-key")
         (scripted [respond 200 (VObj [("data", VArr [])]);
                    respond 200 (VObj [("data", VArr [])])])
         "Echo Dot" []) =
    Normal {| content := [text_item (VStr "Walmart URL Not Found");
                          text_item (VStr "Target URL Not Found")] |}
  /\ fst (extract_product_price (Some "fc-key")
            (scripted [respond 200 (VObj [("data", VObj [])])])
            "https://example.com/p/123" []) =
       Normal {| content := [text_item (VStr "Price not found")] |}.
Proof. split; reflexivity. Qed.

(** ** No handler throws *)

Lemma text_only_one v : text_only {| content := [text_item v] |}.
Proof. split; [discriminate | repeat constructor]. Qed.

Lemma text_only_two v1 v2 : text_only {| content := [text_item v1; text_item v2] |}.
Proof. split; [discriminate | repeat constructor]. Qed.

Create HintDb tools.
#[local] Hint Resolve text_only_one text_only_two : tools.

Ltac returned :=
  do 2 eexists; split;
  [ reflexivity | first [ apply text_only_one | apply text_only_two ] ].

Lemma find_product_urls_returns key transport productName log :
  exists result log',
    find_product_urls key transport productName log = (Normal result, log')
    /\ text_only result.
Proof.
  destruct (not_set key) eqn:Hkey.
  { unfold find_product_urls. rewrite Hkey. returned. }
  destruct (transport log (search_request key "walmart.com" productName)) as [|w] eqn:Hw;
    [| destruct (transport (log ++ [search_request key "walmart.com" productName])%list
                           (search_request key "target.com" productName)) as [|t] eqn:Ht ].
  - unfold find_product_urls, Async.try_catch, Async.bind, Async.fetch.
    rewrite Hkey, Hw. returned.
  - unfold find_product_urls, Async.try_catch, Async.bind, Async.fetch.
    rewrite Hkey, Hw, Ht. returned.
  - rewrite (find_product_urls_settled key transport log Hkey productName w t Hw Ht).
    do 2 eexists. split; [reflexivity|].
    destruct (negb (Outbound.ok w) || negb (Outbound.ok t)); auto with tools.
    repeat match goal with
           | |- context [match ?x with _ => _ end] => destruct x
           end; auto with tools.
Qed.

Lemma extract_product_price_returns key transport productUrl log :
  exists result log',
    extract_product_price key transport productUrl log = (Normal result, log')
    /\ text_only result.
Proof.
  destruct (not_set key) eqn:Hkey.
  { unfold extract_product_price. rewrite Hkey. returned. }
  destruct (transport log (extract_request key productUrl)) as [|r] eqn:Hr.
  - unfold extract_product_price, Async.try_catch, Async.bind, Async.fetch.
    rewrite Hkey, Hr. returned.
  - rewrite (extract_product_price_settled key transport log Hkey productUrl r Hr).
    do 2 eexists. split; [reflexivity|].
    destruct (negb (Outbound.ok r)); auto with tools.
    repeat match goal with
           | |- context [match ?x with _ => _ end] => destruct x
           end; auto with tools.
Qed.

Lemma calculate_returns operation a b log :
  exists result log',
    calculate operation a b log = (Normal result, log') /\ text_only result.
Proof.
  destruct operation; try returned.
  unfold calculate. destruct (PrimFloat.eqb b 0); returned.
Qed.







(** ** The access gate of the gated variant *)

Lemma strict_neq_true_iff a b :
  Worker.Gated.strict_neq a b = true <-> a <> b.
Proof.
  destruct a as [x|], b as [y|]; cbn; try (split; congruence).
  rewrite negb_true_iff, String.eqb_neq. split; congruence.
Qed.

Lemma substring_whole s : substring 0 (String.length s) s = s.
Proof. induction s as [|c s IH]; cbn; [reflexivity | now rewrite IH]. Qed.

(** The credential the gate extracts: the [api-key] header when it is there
    and not empty, otherwise the [authorization] header less its
    [Bearer ] prefix, otherwise [undefined]. *)
Lemma apiKey_custom_header request k :
  Worker.headers_get (Worker.headers request) "api-key" = Some k ->
  k <> "" ->
  Worker.Gated.apiKey request = Some k.
Proof.
  intros H Hk. unfold Worker.Gated.apiKey. rewrite H.
  apply String.eqb_neq in Hk. now rewrite Hk.
Qed.

Lemma apiKey_bearer request token :
  Worker.headers_get (Worker.headers request) "api-key" = None ->
  Worker.headers_get (Worker.headers request) "authorization" = Some ("Bearer " ++ token) ->
  Worker.Gated.apiKey request = Some token.
Proof.
  intros Hk Ha. unfold Worker.Gated.apiKey. rewrite Hk, Ha.
  f_equal. cbn.
  replace (prefix "" token) with true by (destruct token; reflexivity).
  rewrite Nat.sub_0_r. apply substring_whole.
Qed.

Lemma apiKey_absent request :
  Worker.headers_get (Worker.headers request) "api-key" = None ->
  Worker.headers_get (Worker.headers request) "authorization" = None ->
  Worker.Gated.apiKey request = None.
Proof.
  intros Hk Ha. unfold Worker.Gated.apiKey. now rewrite Hk, Ha.
Qed.

(** C2.  In the gated variant a request whose method is not [OPTIONS] and
    whose extracted credential differs from [MCP_API_KEY] gets the 401
    response with the three permissive CORS headers, a response of the
    worker's own making behind which no tool handler runs; a request whose
    method is [OPTIONS] is routed as if there were no gate, whatever its
    headers and the configured secret. *)
Theorem gated_fetch_checks_credential :
  forall request env,
    (Worker.method request <> "OPTIONS" ->
     Worker.Gated.apiKey request <> Worker.MCP_API_KEY env ->
     Worker.Gated.fetch request env =
       Worker.Respond "Unauthorized: Invalid or missing API key" 401
         [ ("Access-Control-Allow-Origin", "*");
           ("Access-Control-Allow-Headers", "Content-Type, api-key, Authorization");
           ("Access-Control-Allow-Methods", "GET, POST, OPTIONS") ]
     /\ Worker.reaches_dispatch (Worker.Gated.fetch request env) = false)
    /\ (Worker.method request = "OPTIONS" ->
        Worker.Gated.fetch request env = Worker.route request
        /\ Worker.Gated.fetch request env = Worker.Authless.fetch request env).
Proof.
  intros request env. split.
  - intros Hmethod Hkey.
    apply String.eqb_neq in Hmethod. apply strict_neq_true_iff in Hkey.
    unfold Worker.Gated.fetch. rewrite Hmethod, Hkey. cbn. split; reflexivity.
  - intros Hmethod.
    unfold Worker.Gated.fetch, Worker.Authless.fetch. rewrite Hmethod. cbn.
    split; reflexivity.
Qed.

Lemma gated_fetch_checks_credential_witness :
  Worker.Gated.fetch
    {| Worker.method := "POST"; Worker.pathname := "/mcp";
       Worker.headers := [("api-key", "guess")] |}
    {| Worker.FIRECRAWL_API_KEY := Some "fc-key"; Worker.MCP_API_KEY := Some "s3cret" |} =
    Worker.Respond "Unauthorized: Invalid or missing API key" 401
      [ ("Access-Control-Allow-Origin", "*");
        ("Access-Control-Allow-Headers", "Content-Type, api-key, Authorization");
        ("Access-Control-Allow-Methods", "GET, POST, OPTIONS") ]
  /\ Worker.Gated.fetch
       {| Worker.method := "OPTIONS"; Worker.pathname := "/mcp";
          Worker.headers := [("api-key", "guess")] |}
       {| Worker.FIRECRAWL_API_KEY := Some "fc-key"; Worker.MCP_API_KEY := Some "s3cret" |} =
     Worker.Serve "/mcp".
Proof.
  split.
  - apply (gated_fetch_checks_credential
             {| Worker.method := "POST"; Worker.pathname := "/mcp";
                Worker.headers := [("api-key", "guess")] |}
             {| Worker.FIRECRAWL_API_KEY := Some "fc-key";
                Worker.MCP_API_KEY := Some "s3cret" |});
      cbn; discriminate.
  - apply (gated_fetch_checks_credential
             {| Worker.method := "OPTIONS"; Worker.pathname := "/mcp";
                Worker.headers := [("api-key", "guess")] |}
             {| Worker.FIRECRAWL_API_KEY := Some "fc-key";
                Worker.MCP_API_KEY := Some "s3cret" |}).
    reflexivity.
Defined.

(** C10.  In the gated variant, with [MCP_API_KEY] not set and a request
    carrying neither an [api-key] nor an [authorization] header, the
    extracted credential and the expected secret are both [undefined], the
    inequality test is false, and the request is routed as in the variant
    without a gate (for every method, hence for every method other than
    [OPTIONS]): on [/mcp] and [/sse] it reaches the SDK's dispatch. *)
Theorem gated_fetch_unset_secret_admits_anonymous :
  forall request env,
    Worker.MCP_API_KEY env = None ->
    Worker.headers_get (Worker.headers request) "api-key" = None ->
    Worker.headers_get (Worker.headers request) "authorization" = None ->
    Worker.Gated.apiKey request = None
    /\ Worker.Gated.strict_neq (Worker.Gated.apiKey request) (Worker.MCP_API_KEY env) = false
    /\ Worker.Gated.fetch request env = Worker.route request
    /\ Worker.Gated.fetch request env <> Worker.Gated.unauthorized
    /\ (Worker.pathname request = "/mcp" \/ Worker.pathname request = "/sse" ->
        Worker.reaches_dispatch (Worker.Gated.fetch request env) = true).
Proof.
  intros request env Henv Hk Ha.
  pose proof (apiKey_absent request Hk Ha) as Hnone.
  assert (Hfetch : Worker.Gated.fetch request env = Worker.route request).
  { unfold Worker.Gated.fetch. rewrite Hnone, Henv. cbn.
    now rewrite andb_false_r. }
  rewrite Hfetch, Hnone, Henv.
  repeat split.
  - unfold Worker.route.
    destruct (_ || _); [discriminate|].
    destruct (String.eqb _ _); discriminate.
  - unfold Worker.route. intros [-> | ->]; reflexivity.
Qed.

Lemma gated_fetch_unset_secret_admits_anonymous_witness :
  Worker.Gated.fetch
    {| Worker.method := "POST"; Worker.pathname := "/mcp";
       Worker.headers := [("content-type", "application/json")] |}
    {| Worker.FIRECRAWL_API_KEY := Some "fc-key"; Worker.MCP_API_KEY := None |} =
    Worker.Serve "/mcp".
Proof.
  apply (gated_fetch_unset_secret_admits_anonymous
           {| Worker.method := "POST"; Worker.pathname := "/mcp";
              Worker.headers := [("content-type", "application/json")] |}
           {| Worker.FIRECRAWL_API_KEY := Some "fc-key"; Worker.MCP_API_KEY := None |});
    reflexivity.
Defined.

(* ===================================================================== *)
(** * Further properties *)
(* ===================================================================== *)

Import Vocabulary.

(** ** Routing and the access check *)

Lemma prefix_iff p s :
  String.prefix p s = true <-> exists rest, s = p ++ rest.
Proof.
  revert s. induction p as [|c p IH]; intros s.
  - split; [intros _; exists s; reflexivity | intros _; destruct s; reflexivity].
  - destruct s as [|c' s]; cbn.
    + split; [discriminate | intros [rest H]; discriminate].
    + destruct (Ascii.ascii_dec c c') as [->|Hc].
      * rewrite IH. split; intros [rest H]; exists rest; cbn in *; congruence.
      * split; [discriminate | intros [rest H]; cbn in H; congruence].
Qed.

Lemma route_served_iff request :
  Worker.reaches_dispatch (Worker.route request) = true
  <-> served_path (Worker.pathname request).
Proof.
  unfold Worker.route, served_path, JS.startsWith.
  destruct (String.eqb_spec (Worker.pathname request) "/sse") as [E1|N1].
  { cbn. split; auto. }
  destruct (String.prefix "/sse/" (Worker.pathname request)) eqn:E2.
  { cbn. split; auto. intros _. right. left.
    exact (proj1 (prefix_iff "/sse/" _) E2). }
  cbn [orb].
  destruct (String.eqb_spec (Worker.pathname request) "/mcp") as [E3|N3].
  { cbn. split; auto. }
  cbn. split; [discriminate|].
  intros [H | [H | H]]; try contradiction.
  pose proof (proj2 (prefix_iff "/sse/" _) H). congruence.
Qed.

Lemma route_not_found_iff request :
  Worker.route request = Worker.Respond "Not found" 404 []
  <-> ~ served_path (Worker.pathname request).
Proof.
  rewrite <- route_served_iff. unfold Worker.route.
  destruct (_ || _); [cbn; split; [discriminate | congruence]|].
  destruct (String.eqb _ _); cbn; split; try discriminate; congruence.
Qed.

Lemma route_not_unauthorized request :
  Worker.route request <> Worker.Gated.unauthorized.
Proof.
  unfold Worker.route.
  destruct (_ || _); [discriminate|].
  destruct (String.eqb _ _); discriminate.
Qed.

(** X1.  The variant without a check hands a request to the SDK exactly when
    its path is [/sse], lies under [/sse/], or is [/mcp]; every other path
    ([/mcp/], [/sse2], [/]) gets the bare 404, and nothing but the path
    matters. *)
Theorem authless_fetch_routing :
  forall request env,
    (Worker.reaches_dispatch (Worker.Authless.fetch request env) = true
     <-> served_path (Worker.pathname request))
    /\ (Worker.Authless.fetch request env = Worker.Respond "Not found" 404 []
        <-> ~ served_path (Worker.pathname request)).
Proof.
  intros request env. unfold Worker.Authless.fetch.
  split; [apply route_served_iff | apply route_not_found_iff].
Qed.

(** X2.  The decision table of the gated variant.  A request is admitted when
    its method is [OPTIONS] or its credential equals [MCP_API_KEY]; the 401
    is returned exactly to the requests that are not admitted, whatever
    their path; an admitted request reaches the SDK exactly on the served
    paths and gets the 404 exactly on the others. *)
Theorem gated_fetch_decision_table :
  forall request env,
    (Worker.Gated.fetch request env = Worker.Gated.unauthorized
     <-> Worker.method request <> "OPTIONS"
         /\ Worker.Gated.apiKey request <> Worker.MCP_API_KEY env)
    /\ (Worker.reaches_dispatch (Worker.Gated.fetch request env) = true
        <-> (Worker.method request = "OPTIONS"
             \/ Worker.Gated.apiKey request = Worker.MCP_API_KEY env)
            /\ served_path (Worker.pathname request))
    /\ (Worker.Gated.fetch request env = Worker.Respond "Not found" 404 []
        <-> (Worker.method request = "OPTIONS"
             \/ Worker.Gated.apiKey request = Worker.MCP_API_KEY env)
            /\ ~ served_path (Worker.pathname request)).
Proof.
  intros request env. unfold Worker.Gated.fetch.
  rewrite <- route_not_found_iff, <- route_served_iff.
  pose proof (route_not_unauthorized request) as Hroute.
  destruct (String.eqb_spec (Worker.method request) "OPTIONS") as [Hm|Hm]; cbn [negb andb].
  { intuition congruence. }
  destruct (Worker.Gated.strict_neq _ _) eqn:Hneq.
  - apply strict_neq_true_iff in Hneq. cbn.
    intuition (congruence || discriminate).
  - assert (Heq : Worker.Gated.apiKey request = Worker.MCP_API_KEY env).
    { destruct (Worker.Gated.apiKey request) as [x|], (Worker.MCP_API_KEY env) as [y|];
        cbn in Hneq; try discriminate; try reflexivity.
      apply negb_false_iff, String.eqb_eq in Hneq. now subst. }
    intuition congruence.
Qed.

Lemma apiKey_fallback request :
  Worker.headers_get (Worker.headers request) "api-key" = None
  \/ Worker.headers_get (Worker.headers request) "api-key" = Some "" ->
  Worker.Gated.apiKey request =
    match Worker.headers_get (Worker.headers request) "authorization" with
    | Some a => Some (JS.replace "Bearer " "" a)
    | None => None
    end.
Proof.
  intros [H | H]; unfold Worker.Gated.apiKey; rewrite H; reflexivity.
Qed.

Lemma replace_prefix p r s : JS.replace p r (p ++ s) = (r ++ s)%string.
Proof.
  assert (Hp : String.prefix p (p ++ s) = true) by (apply prefix_iff; eauto).
  assert (Hs : substring (String.length p)
                 (String.length (p ++ s) - String.length p) (p ++ s) = s).
  { clear Hp. induction p as [|c p IH]; cbn.
    - rewrite Nat.sub_0_r. apply substring_whole.
    - exact IH. }
  destruct (p ++ s)%string eqn:E; cbn [JS.replace]; rewrite Hp, Hs; reflexivity.
Qed.

Lemma replace_absent p r s : includes s p = false -> JS.replace p r s = s.
Proof.
  induction s as [|c s IH]; cbn [includes JS.replace].
  - destruct (String.prefix p ""); [discriminate | reflexivity].
  - destruct (String.prefix p (String c s)); [discriminate|].
    intros H. now rewrite IH.
Qed.

Lemma gated_fetch_admits request env :
  Worker.Gated.apiKey request = Worker.MCP_API_KEY env ->
  Worker.Gated.fetch request env = Worker.route request.
Proof.
  intros H. unfold Worker.Gated.fetch. rewrite H.
  replace (Worker.Gated.strict_neq _ _) with false; [now rewrite andb_false_r|].
  destruct (Worker.MCP_API_KEY env); cbn; [now rewrite String.eqb_refl | reflexivity].
Qed.

Lemma gated_fetch_rejects request env :
  Worker.method request <> "OPTIONS" ->
  Worker.Gated.apiKey request <> Worker.MCP_API_KEY env ->
  Worker.Gated.fetch request env = Worker.Gated.unauthorized.
Proof.
  intros Hm Hk.
  apply String.eqb_neq in Hm. apply strict_neq_true_iff in Hk.
  unfold Worker.Gated.fetch. now rewrite Hm, Hk.
Qed.

(** X3.  With no [api-key] header, or an empty one, a request whose
    [authorization] header is [Bearer ] followed by the configured secret is
    admitted: it is routed as in the variant without a check. *)
Theorem gated_fetch_admits_bearer :
  forall request env secret,
    Worker.MCP_API_KEY env = Some secret ->
    Worker.headers_get (Worker.headers request) "api-key" = None
    \/ Worker.headers_get (Worker.headers request) "api-key" = Some "" ->
    Worker.headers_get (Worker.headers request) "authorization" =
      Some ("Bearer " ++ secret) ->
    Worker.Gated.fetch request env = Worker.Authless.fetch request env.
Proof.
  intros request env secret Hsecret Hkey Hauth.
  apply gated_fetch_admits.
  rewrite (apiKey_fallback request Hkey), Hauth, Hsecret.
  now rewrite (replace_prefix "Bearer " "" secret).
Qed.

Lemma gated_fetch_admits_bearer_witness :
  Worker.Gated.fetch
    {| Worker.method := "POST"; Worker.pathname := "/mcp";
       Worker.headers := [("api-key", ""); ("authorization", "Bearer s3cret")] |}
    {| Worker.FIRECRAWL_API_KEY := Some "fc-key"; Worker.MCP_API_KEY := Some "s3cret" |} =
    Worker.Serve "/mcp".
Proof.
  apply (gated_fetch_admits_bearer
           {| Worker.method := "POST"; Worker.pathname := "/mcp";
              Worker.headers := [("api-key", ""); ("authorization", "Bearer s3cret")] |}
           {| Worker.FIRECRAWL_API_KEY := Some "fc-key";
              Worker.MCP_API_KEY := Some "s3cret" |} "s3cret").
  - reflexivity.
  - right. reflexivity.
  - reflexivity.
Defined.

(** X4.  With no [api-key] header, or an empty one, an [authorization]
    header in which [Bearer ] (capital B, one space) does not occur is the
    credential as a whole: on a method other than [OPTIONS] the request is
    admitted when the header is the secret itself, and gets the 401
    otherwise, as a header with another scheme or a lower-case [bearer ]
    does. *)
Theorem gated_fetch_authorization_without_scheme :
  forall request env secret a,
    Worker.MCP_API_KEY env = Some secret ->
    Worker.method request <> "OPTIONS" ->
    Worker.headers_get (Worker.headers request) "api-key" = None
    \/ Worker.headers_get (Worker.headers request) "api-key" = Some "" ->
    Worker.headers_get (Worker.headers request) "authorization" = Some a ->
    includes a "Bearer " = false ->
    (a = secret -> Worker.Gated.fetch request env = Worker.route request)
    /\ (a <> secret -> Worker.Gated.fetch request env = Worker.Gated.unauthorized).
Proof.
  intros request env secret a Hsecret Hm Hkey Hauth Hscheme.
  assert (Hcred : Worker.Gated.apiKey request = Some a).
  { rewrite (apiKey_fallback request Hkey), Hauth.
    now rewrite (replace_absent _ _ _ Hscheme). }
  split; intros H.
  - apply gated_fetch_admits. congruence.
  - apply gated_fetch_rejects; [exact Hm | congruence].
Qed.

Lemma gated_fetch_authorization_without_scheme_witness :
  Worker.Gated.fetch
    {| Worker.method := "POST"; Worker.pathname := "/mcp";
       Worker.headers := [("authorization", "s3cret")] |}
    {| Worker.FIRECRAWL_API_KEY := None; Worker.MCP_API_KEY := Some "s3cret" |} =
    Worker.Serve "/mcp"
  /\ Worker.Gated.fetch
       {| Worker.method := "POST"; Worker.pathname := "/mcp";
          Worker.headers := [("authorization", "bearer s3cret")] |}
       {| Worker.FIRECRAWL_API_KEY := None; Worker.MCP_API_KEY := Some "s3cret" |} =
     Worker.Gated.unauthorized.
Proof.
  split.
  - apply (gated_fetch_authorization_without_scheme
             {| Worker.method := "POST"; Worker.pathname := "/mcp";
                Worker.headers := [("authorization", "s3cret")] |}
             {| Worker.FIRECRAWL_API_KEY := None; Worker.MCP_API_KEY := Some "s3cret" |}
             "s3cret" "s3cret");
      try reflexivity; [discriminate | left; reflexivity].
  - apply (gated_fetch_authorization_without_scheme
             {| Worker.method := "POST"; Worker.pathname := "/mcp";
                Worker.headers := [("authorization", "bearer s3cret")] |}
             {| Worker.FIRECRAWL_API_KEY := None; Worker.MCP_API_KEY := Some "s3cret" |}
             "s3cret" "bearer s3cret");
      try reflexivity; try discriminate. left; reflexivity.
Defined.

(** X5.  A non-empty [api-key] header decides alone: two requests with the
    same method, path and non-empty [api-key] header get the same answer,
    whatever their other headers.  A wrong [api-key] is therefore not
    rescued by an [authorization] header bearing the right secret. *)
Theorem gated_fetch_api_key_takes_precedence :
  forall request request' env k,
    k <> "" ->
    Worker.headers_get (Worker.headers request) "api-key" = Some k ->
    Worker.headers_get (Worker.headers request') "api-key" = Some k ->
    Worker.method request = Worker.method request' ->
    Worker.pathname request = Worker.pathname request' ->
    Worker.Gated.fetch request env = Worker.Gated.fetch request' env.
Proof.
  intros request request' env k Hk H H' Hm Hp.
  unfold Worker.Gated.fetch, Worker.route.
  rewrite (apiKey_custom_header request k H Hk),
          (apiKey_custom_header request' k H' Hk), Hm, Hp.
  reflexivity.
Qed.

Lemma gated_fetch_api_key_takes_precedence_witness :
  Worker.Gated.fetch
    {| Worker.method := "POST"; Worker.pathname := "/mcp";
       Worker.headers := [("api-key", "guess"); ("authorization", "Bearer s3cret")] |}
    {| Worker.FIRECRAWL_API_KEY := None; Worker.MCP_API_KEY := Some "s3cret" |} =
    Worker.Gated.unauthorized.
Proof.
  rewrite (gated_fetch_api_key_takes_precedence
             {| Worker.method := "POST"; Worker.pathname := "/mcp";
                Worker.headers := [("api-key", "guess"); ("authorization", "Bearer s3cret")] |}
             {| Worker.method := "POST"; Worker.pathname := "/mcp";
                Worker.headers := [("api-key", "guess")] |}
             {| Worker.FIRECRAWL_API_KEY := None; Worker.MCP_API_KEY := Some "s3cret" |}
             "guess"); try reflexivity.
  discriminate.
Defined.

(** ** The outbound calls a tool makes *)

Lemma find_product_urls_log key transport productName log :
  not_set key = false ->
  snd (find_product_urls key transport productName log) =
    (log ++ [search_request key "walmart.com" productName;
             search_request key "target.com" productName])%list.
Proof.
  intros Hkey.
  destruct (transport log (search_request key "walmart.com" productName)) as [|w] eqn:Hw;
    destruct (transport (log ++ [search_request key "walmart.com" productName])%list
                        (search_request key "target.com" productName)) as [|t] eqn:Ht;
    try (rewrite (find_product_urls_settled key transport log Hkey productName w t Hw Ht);
         reflexivity);
    unfold find_product_urls, Async.try_catch, Async.bind, Async.fetch;
    rewrite Hkey, Hw, Ht; cbn; now rewrite <- app_assoc.
Qed.

Lemma extract_product_price_log key transport productUrl log :
  not_set key = false ->
  snd (extract_product_price key transport productUrl log) =
    (log ++ [extract_request key productUrl])%list.
Proof.
  intros Hkey.
  destruct (transport log (extract_request key productUrl)) as [|r] eqn:Hr.
  - unfold extract_product_price, Async.try_catch, Async.bind, Async.fetch.
    rewrite Hkey, Hr. reflexivity.
  - now rewrite (extract_product_price_settled key transport log Hkey productUrl r Hr).
Qed.

(** X6.  With the key configured, [find_product_urls] issues exactly two
    calls, the Walmart search then the Target search, however the outside
    world answers: both are issued before either is awaited, so the Target
    call goes out even when the Walmart call is rejected or fails, and
    nothing is retried. *)
Theorem find_product_urls_issues_both_calls :
  forall key transport productName log,
    not_set key = false ->
    snd (find_product_urls key transport productName log) =
      (log ++ [search_request key "walmart.com" productName;
               search_request key "target.com" productName])%list
    /\ Outbound.body (search_request key "walmart.com" productName) =
         VObj [("query", VStr ("site:walmart.com " ++ productName))]
    /\ Outbound.body (search_request key "target.com" productName) =
         VObj [("query", VStr ("site:target.com " ++ productName))].
Proof.
  intros key transport productName log Hkey.
  split; [now apply find_product_urls_log | split; reflexivity].
Qed.

Lemma find_product_urls_issues_both_calls_witness :
  snd (find_product_urls (Some "fc-key") (scripted [Outbound.Rejected; respond 500 VNull])
         "Echo Dot" []) =
    [search_request (Some "fc-key") "walmart.com" "Echo Dot";
     search_request (Some "fc-key") "target.com" "Echo Dot"].
Proof.
  apply (find_product_urls_issues_both_calls (Some "fc-key")
           (scripted [Outbound.Rejected; respond 500 VNull]) "Echo Dot" []).
  reflexivity.
Defined.

(** X7.  Whatever the tool, its arguments and the answers of the outside
    world, a dispatched call only appends to the log of outbound calls, and
    what it appends are POST calls to the Firecrawl API carrying the
    configured key as bearer token: two for [find_product_urls], one for
    [extract_product_price], none for the arithmetic tools, and none at all
    when the key is not set. *)
Theorem dispatch_calls_only_firecrawl :
  forall key transport call log,
  exists calls,
    snd (dispatch key transport call log) = (log ++ calls)%list
    /\ Forall (firecrawl_call key) calls
    /\ List.length calls =
         if not_set key then 0%nat
         else match call with
              | call_find_product_urls _ => 2%nat
              | call_extract_product_price _ => 1%nat
              | call_add _ _ | call_calculate _ _ _ => 0%nat
              end.
Proof.
  intros key transport call log.
  assert (Hcall : forall site name, firecrawl_call key (search_request key site name)).
  { intros. repeat split. cbn. auto. }
  assert (Hcall' : forall u, firecrawl_call key (extract_request key u)).
  { intros. repeat split. cbn. auto. }
  destruct (not_set key) eqn:Hkey.
  - exists []. rewrite app_nil_r. repeat split; [|constructor].
    destruct call as [productName | productUrl | a b | operation a b]; cbn [dispatch].
    + unfold find_product_urls. now rewrite Hkey.
    + unfold extract_product_price. now rewrite Hkey.
    + reflexivity.
    + destruct operation; try reflexivity.
      unfold calculate. destruct (PrimFloat.eqb b 0); reflexivity.
  - destruct call as [productName | productUrl | a b | operation a b]; cbn [dispatch].
    + eexists. split; [now apply find_product_urls_log|].
      split; [repeat constructor; apply Hcall | reflexivity].
    + eexists. split; [now apply extract_product_price_log|].
      split; [repeat constructor; apply Hcall' | reflexivity].
    + exists []. rewrite app_nil_r. repeat split. constructor.
    + exists []. rewrite app_nil_r. repeat split; [|constructor].
      destruct operation; try reflexivity.
      unfold calculate. destruct (PrimFloat.eqb b 0); reflexivity.
Qed.

(** ** The shape of what the upstream tools return *)

Lemma or_else_truthy u s : truthy s = true -> truthy (or_else u s) = true.
Proof. intros H. unfold or_else. destruct (truthy u) eqn:E; assumption. Qed.

(** X8.  Whatever happens, every text [find_product_urls] returns is truthy:
    never the empty string, [null], [0] or [false].  A falsy upstream value
    is always replaced, and the result holds one or two items. *)
Theorem find_product_urls_texts_truthy :
  forall key transport productName log,
  exists result,
    fst (find_product_urls key transport productName log) = Normal result
    /\ Forall (fun item => truthy (text item) = true) (content result)
    /\ (List.length (content result) = 1%nat \/ List.length (content result) = 2%nat).
Proof.
  intros key transport productName log.
  destruct (not_set key) eqn:Hkey.
  { unfold find_product_urls. rewrite Hkey.
    eexists. split; [reflexivity|]. split; [repeat constructor | now left]. }
  destruct (transport log (search_request key "walmart.com" productName)) as [|w] eqn:Hw;
    [| destruct (transport (log ++ [search_request key "walmart.com" productName])%list
                           (search_request key "target.com" productName)) as [|t] eqn:Ht ].
  - unfold find_product_urls, Async.try_catch, Async.bind, Async.fetch.
    rewrite Hkey, Hw.
    eexists. split; [reflexivity|]. split; [repeat constructor | now left].
  - unfold find_product_urls, Async.try_catch, Async.bind, Async.fetch.
    rewrite Hkey, Hw, Ht.
    eexists. split; [reflexivity|]. split; [repeat constructor | now left].
  - rewrite (find_product_urls_settled key transport log Hkey productName w t Hw Ht).
    eexists. split; [reflexivity|].
    repeat match goal with
           | |- context [match ?x with _ => _ end] => destruct x
           end;
      (split; [ repeat constructor; cbn [text text_item]; now apply or_else_truthy
              | cbn; auto ]).
Qed.

(** X9.  [find_product_urls] returns two items exactly when the key is
    configured and both search calls came back successful with JSON bodies
    other than [null]; in every other case (a rejected call, a failure
    status, a body that is not JSON, a [null] body, on either side) it
    returns a single item and nothing of the other side's answer. *)
Theorem find_product_urls_two_items_iff :
  forall key transport productName log,
    (exists item1 item2,
        fst (find_product_urls key transport productName log) =
          Normal {| content := [item1; item2] |})
    <-> not_set key = false
        /\ both_results
             (transport log (search_request key "walmart.com" productName))
             (transport (log ++ [search_request key "walmart.com" productName])%list
                        (search_request key "target.com" productName)).
Proof.
  intros key transport productName log. unfold both_results.
  destruct (not_set key) eqn:Hkey.
  { unfold find_product_urls. rewrite Hkey. cbn.
    split; [intros (i1 & i2 & H); discriminate | intros [H _]; discriminate]. }
  destruct (transport log (search_request key "walmart.com" productName)) as [|w] eqn:Hw;
    [| destruct (transport (log ++ [search_request key "walmart.com" productName])%list
                           (search_request key "target.com" productName)) as [|t] eqn:Ht ].
  - unfold find_product_urls, Async.try_catch, Async.bind, Async.fetch.
    rewrite Hkey, Hw. cbn.
    split; [intros (i1 & i2 & H); discriminate
           | intros [_ (w & t & wd & td & H & _)]; discriminate].
  - unfold find_product_urls, Async.try_catch, Async.bind, Async.fetch.
    rewrite Hkey, Hw, Ht. cbn.
    split; [intros (i1 & i2 & H); discriminate
           | intros [_ (w' & t & wd & td & _ & H & _)]; discriminate].
  - rewrite (find_product_urls_settled key transport log Hkey productName w t Hw Ht).
    cbn [fst]. unfold first_result_url, get_member.
    split.
    + intros (i1 & i2 & H). split; [reflexivity|].
      destruct (Outbound.ok w) eqn:Hokw; [|discriminate H].
      destruct (Outbound.ok t) eqn:Hokt; [|discriminate H].
      cbn [negb orb] in H.
      destruct (Outbound.json w) as [wd|] eqn:Hjw; [|discriminate H].
      destruct (Outbound.json t) as [td|] eqn:Hjt; [|discriminate H].
      destruct (nullish wd) eqn:Nw; [discriminate H|].
      destruct (nullish td) eqn:Nt; [discriminate H|].
      exists w, t, wd, td. repeat split; auto.
    + intros [_ (w' & t' & wd & td & [= <-] & [= <-] & Hokw & Hokt & Hjw & Hjt & Nw & Nt)].
      rewrite Hokw, Hokt, Hjw, Hjt, Nw, Nt. cbn [negb orb]. eauto.
Qed.

Lemma shortest_digits fuel :
  forall k m e n0, (k <= fst (fst (shortest fuel k m e n0)))%nat.
Proof.
  induction fuel as [|fuel IH]; intros k m e n0; cbn [shortest];
    repeat match goal with
           | |- context [match ?x with _ => _ end] => destruct x
           | |- context [if ?x then _ else _] => destruct x
           end; cbn [fst]; try lia.
  specialize (IH (S k) m e n0). lia.
Qed.

Lemma head_format_some ds k n : head ds <> None -> head (format ds k n) <> None.
Proof.
  intros H. unfold format.
  destruct ((k <=? n) && (n <=? 21)).
  { rewrite head_app. destruct (head ds); [discriminate | contradiction]. }
  destruct ((0 <? n) && (n <=? 21)).
  { rewrite head_app. destruct (head (substring _ _ _)); cbn; discriminate. }
  destruct ((-6 <? n) && (n <=? 0)); [cbn; discriminate|].
  rewrite head_app.
  destruct ds as [|c [|c' rest]]; cbn [head] in *;
    try discriminate; try contradiction.
Qed.

Lemma number_toString_nonempty x : number_toString x <> "".
Proof.
  intros H. apply (f_equal head) in H. revert H.
  unfold number_toString.
  destruct (Prim2SF x) as [s|s| |s m e];
    try (destruct s); try (cbn; discriminate).
  unfold positive_toString.
  pose proof (shortest_digits 16 1 m e
                (decimal_exponent 8 (exponent_estimate m e) (real_value m e))) as Hk.
  destruct (shortest _ _ _ _ _) as [[k c] n]. cbn [fst] in Hk.
  apply head_format_some.
  destruct k; [lia | cbn; discriminate].
Qed.

(** X10.  [extract_product_price], [add] and [calculate] always return
    exactly one item whose text is a string; for the two arithmetic tools
    the string is never empty. *)
Theorem single_string_results :
  (forall key transport productUrl log,
      exists s,
        fst (extract_product_price key transport productUrl log) =
          Normal {| content := [text_item (VStr s)] |})
  /\ (forall a b log,
         exists s,
           fst (add a b log) = Normal {| content := [text_item (VStr s)] |}
           /\ s <> "")
  /\ (forall operation a b log,
         exists s,
           fst (calculate operation a b log) =
             Normal {| content := [text_item (VStr s)] |}
           /\ s <> "").
Proof.
  split; [|split].
  - intros key transport productUrl log.
    destruct (not_set key) eqn:Hkey.
    { unfold extract_product_price. rewrite Hkey. eexists. reflexivity. }
    destruct (transport log (extract_request key productUrl)) as [|r] eqn:Hr.
    + unfold extract_product_price, Async.try_catch, Async.bind, Async.fetch.
      rewrite Hkey, Hr. eexists. reflexivity.
    + rewrite (extract_product_price_settled key transport log Hkey productUrl r Hr).
      cbn [fst].
      repeat match goal with
             | |- context [match ?x with _ => _ end] => destruct x
             end; eexists; reflexivity.
  - intros. eexists. split; [reflexivity | apply number_toString_nonempty].
  - intros operation a b log.
    destruct operation;
      try (eexists; split; [reflexivity | apply number_toString_nonempty]).
    unfold calculate. destruct (PrimFloat.eqb b 0); eexists;
      (split; [reflexivity | first [discriminate | apply number_toString_nonempty]]).
Qed.

(** X11.  A successful response whose JSON body is [null] is not degraded to
    a sentinel: reading [.data] of [null] throws, and the tool answers with
    its generic failure item.  In [find_product_urls] a [null] body on
    either side discards the other side's answer too. *)
Theorem null_body_is_a_failure :
  (forall key transport productName log w t,
      not_set key = false ->
      transport log (search_request key "walmart.com" productName) = Outbound.Resolved w ->
      transport (log ++ [search_request key "walmart.com" productName])%list
                (search_request key "target.com" productName) = Outbound.Resolved t ->
      Outbound.ok w = true -> Outbound.ok t = true ->
      Outbound.json w = Some VNull \/ Outbound.json t = Some VNull ->
      fst (find_product_urls key transport productName log) =
        Normal {| content := [text_item (VStr "An unexpected error occurred.")] |})
  /\ (forall key transport productUrl log r,
         not_set key = false ->
         transport log (extract_request key productUrl) = Outbound.Resolved r ->
         Outbound.ok r = true ->
         Outbound.json r = Some VNull ->
         fst (extract_product_price key transport productUrl log) =
           Normal {| content :=
                       [text_item (VStr "An unexpected error occurred while extracting the price.")] |}).
Proof.
  split.
  - intros key transport productName log w t Hkey Hw Ht Hokw Hokt Hnull.
    rewrite (find_product_urls_settled key transport log Hkey productName w t Hw Ht).
    rewrite Hokw, Hokt. cbn [negb orb fst].
    destruct Hnull as [-> | ->].
    + cbn. destruct (Outbound.json t); reflexivity.
    + destruct (Outbound.json w) as [wd|]; [|reflexivity].
      destruct (first_result_url wd); reflexivity.
  - intros key transport productUrl log r Hkey Hr Hok Hnull.
    rewrite (extract_product_price_settled key transport log Hkey productUrl r Hr).
    now rewrite Hok, Hnull.
Qed.

Lemma null_body_is_a_failure_witness :
  fst (find_product_urls (Some "fc-key")
         (scripted [respond 200 (search_doc (VStr "https://www.walmart.com/ip/1"));
                    respond 200 VNull])
         "Echo Dot" []) =
    Normal {| content := [text_item (VStr "An unexpected error occurred.")] |}
  /\ fst (extract_product_price (Some "fc-key") (scripted [respond 200 VNull])
            "https://example.com/p/123" []) =
       Normal {| content :=
                   [text_item (VStr "An unexpected error occurred while extracting the price.")] |}.
Proof.
  destruct null_body_is_a_failure as [Hsearch Hextract].
  split.
  - apply (Hsearch (Some "fc-key") _ "Echo Dot" []
             {| Outbound.status := 200;
                Outbound.json := Some (search_doc (VStr "https://www.walmart.com/ip/1")) |}
             {| Outbound.status := 200; Outbound.json := Some VNull |});
      try reflexivity. right. reflexivity.
  - apply (Hextract (Some "fc-key") _ "https://example.com/p/123" []
             {| Outbound.status := 200; Outbound.json := Some VNull |});
      reflexivity.
Defined.

(** X12.  Any other successful JSON body without [data] is degraded to the
    sentinels, not an error: a number, a string, a boolean, an array, an
    object with no [data] property or with [data: null]. *)
Theorem bodies_without_data_get_sentinels :
  (forall key transport productName log w t walmartData targetData,
      not_set key = false ->
      transport log (search_request key "walmart.com" productName) = Outbound.Resolved w ->
      transport (log ++ [search_request key "walmart.com" productName])%list
                (search_request key "target.com" productName) = Outbound.Resolved t ->
      Outbound.ok w = true -> Outbound.ok t = true ->
      Outbound.json w = Some walmartData -> Outbound.json t = Some targetData ->
      nullish walmartData = false -> nullish (member walmartData "data") = true ->
      nullish targetData = false -> nullish (member targetData "data") = true ->
      fst (find_product_urls key transport productName log) =
        Normal {| content := [text_item (VStr "Walmart URL Not Found");
                              text_item (VStr "Target URL Not Found")] |})
  /\ (forall key transport productUrl log r extractedData,
         not_set key = false ->
         transport log (extract_request key productUrl) = Outbound.Resolved r ->
         Outbound.ok r = true ->
         Outbound.json r = Some extractedData ->
         nullish extractedData = false -> nullish (member extractedData "data") = true ->
         fst (extract_product_price key transport productUrl log) =
           Normal {| content := [text_item (VStr "Price not found")] |})
  /\ (forall v, match v with VNull | VUndefined | VObj _ => True
                        | _ => nullish v = false /\ member v "data" = VUndefined end).
Proof.
  split; [|split].
  - intros key transport productName log w t walmartData targetData
           Hkey Hw Ht Hokw Hokt Hjw Hjt Nw Dw Nt Dt.
    rewrite (find_product_urls_settled key transport log Hkey productName w t Hw Ht).
    rewrite Hokw, Hokt, Hjw, Hjt. cbn [negb orb fst].
    unfold first_result_url, get_member, optional. now rewrite Nw, Nt, Dw, Dt.
  - intros key transport productUrl log r extractedData Hkey Hr Hok Hj Nd Dd.
    rewrite (extract_product_price_settled key transport log Hkey productUrl r Hr).
    rewrite Hok, Hj. cbn [negb fst].
    unfold extracted_price, get_member, optional. now rewrite Nd, Dd.
  - intros v. destruct v; cbn; auto.
Qed.

Lemma bodies_without_data_get_sentinels_witness :
  fst (find_product_urls (Some "fc-key")
         (scripted [respond 200 (VStr "Too Many Requests");
                    respond 200 (VObj [("error", VStr "quota")])])
         "Echo Dot" []) =
    Normal {| content := [text_item (VStr "Walmart URL Not Found");
                          text_item (VStr "Target URL Not Found")] |}
  /\ fst (extract_product_price (Some "fc-key")
            (scripted [respond 200 (VArr [])])
            "https://example.com/p/123" []) =
       Normal {| content := [text_item (VStr "Price not found")] |}.
Proof.
  destruct bodies_without_data_get_sentinels as [Hsearch [Hextract _]].
  split.
  - apply (Hsearch (Some "fc-key") _ "Echo Dot" []
             {| Outbound.status := 200; Outbound.json := Some (VStr "Too Many Requests") |}
             {| Outbound.status := 200;
                Outbound.json := Some (VObj [("error", VStr "quota")]) |}
             (VStr "Too Many Requests") (VObj [("error", VStr "quota")]));
      reflexivity.
  - apply (Hextract (Some "fc-key") _ "https://example.com/p/123" []
             {| Outbound.status := 200; Outbound.json := Some (VArr []) |} (VArr []));
      reflexivity.
Defined.

(** ** Arithmetic on binary64 *)

Lemma SFadd_comm x y : SFadd prec emax x y = SFadd prec emax y x.
Proof.
  destruct x as [sx|sx| |sx mx ex], y as [sy|sy| |sy my ey];
    try reflexivity; try (destruct sx, sy; reflexivity).
  unfold SFadd. rewrite (Z.min_comm ey ex). f_equal. apply Z.add_comm.
Qed.

Lemma SFmul_comm x y : SFmul prec emax x y = SFmul prec emax y x.
Proof.
  destruct x as [sx|sx| |sx mx ex], y as [sy|sy| |sy my ey];
    try reflexivity; try (cbn; now rewrite xorb_comm).
  unfold SFmul. now rewrite xorb_comm, Pos.mul_comm, Z.add_comm.
Qed.

Lemma float_add_comm (a b : float) : (a + b = b + a)%float.
Proof. apply Prim2SF_inj. rewrite !add_spec. apply SFadd_comm. Qed.

Lemma float_mul_comm (a b : float) : (a * b = b * a)%float.
Proof. apply Prim2SF_inj. rewrite !mul_spec. apply SFmul_comm. Qed.

Lemma float_sub_diag (a : float) :
  Prim2SF (a - a)%float =
    match Prim2SF a with
    | S754_zero _ | S754_finite _ _ _ => S754_zero false
    | S754_infinity _ | S754_nan => S754_nan
    end.
Proof.
  rewrite sub_spec. unfold SF64sub.
  destruct (Prim2SF a) as [s|s| |s m e];
    try reflexivity; try (destruct s; reflexivity).
  unfold SFsub. cbv zeta. rewrite Z.sub_diag. reflexivity.
Qed.

Lemma float_is_nan (b : float) : Prim2SF b = S754_nan -> b = nan.
Proof. intros H. rewrite <- (SF2Prim_Prim2SF b), H. reflexivity. Qed.

Lemma float_div_zero (a b : float) :
  a = 0%float \/ a = (-0)%float ->
  b <> 0%float -> b <> (-0)%float -> b <> nan ->
  exists s, Prim2SF (a / b)%float = S754_zero s.
Proof.
  intros Ha Hp Hn Hnan. rewrite div_spec. unfold SF64div.
  assert (Hza : exists s, Prim2SF a = S754_zero s)
    by (destruct Ha as [-> | ->]; eexists; reflexivity).
  destruct Hza as [sa ->].
  destruct (Prim2SF b) as [s|s| |s m e] eqn:E; cbn; eauto.
  - exfalso.
    assert (H : PrimFloat.eqb b 0 = true)
      by (rewrite eqb_spec, E; destruct s; reflexivity).
    apply strict_eq_zero in H. tauto.
  - exfalso. now apply Hnan, float_is_nan.
Qed.

(** X13.  The sum and the product do not depend on the order of the
    operands: [add], [calculate] with [add] and [calculate] with [multiply]
    return the same result for [(a, b)] and [(b, a)], rounding, infinities
    and NaN included. *)
Theorem arithmetic_commutes :
  forall a b log,
    add a b log = add b a log
    /\ calculate op_add a b log = calculate op_add b a log
    /\ calculate op_multiply a b log = calculate op_multiply b a log.
Proof.
  intros a b log. unfold add, calculate.
  rewrite (float_add_comm a b), (float_mul_comm a b). auto.
Qed.

(** X14.  [calculate] with [subtract] on equal operands: the text is ["0"]
    for every finite number, rounding never leaves a residue, and ["NaN"]
    for the infinities and NaN. *)
Theorem calculate_subtract_self :
  forall a log,
    (finite a ->
     calculate op_subtract a a log =
       (Normal {| content := [text_item (VStr "0")] |}, log))
    /\ (~ finite a ->
        calculate op_subtract a a log =
          (Normal {| content := [text_item (VStr "NaN")] |}, log)).
Proof.
  intros a log.
  assert (E : calculate op_subtract a a log =
              (Normal {| content := [text_item (VStr (number_toString (a - a)))] |}, log))
    by reflexivity.
  rewrite E. unfold number_toString, finite. rewrite float_sub_diag.
  destruct (Prim2SF a); split; intros H; try reflexivity; try contradiction;
    exfalso; apply H; exact I.
Qed.

Lemma calculate_subtract_self_witness :
  calculate op_subtract 2.5 2.5 [] =
    (Normal {| content := [text_item (VStr "0")] |}, [])
  /\ calculate op_subtract infinity infinity [] =
       (Normal {| content := [text_item (VStr "NaN")] |}, []).
Proof.
  split.
  - apply (calculate_subtract_self 2.5 []). vm_compute. exact I.
  - apply (calculate_subtract_self infinity []). vm_compute. intros H; exact H.
Defined.

(** X15.  [calculate] with [divide] and a zero numerator: for every divisor
    other than the zeros and NaN (negative and infinite ones included) the
    text is ["0"], never ["-0"]. *)
Theorem calculate_divide_zero_numerator :
  forall a b log,
    a = 0%float \/ a = (-0)%float ->
    b <> 0%float -> b <> (-0)%float -> b <> nan ->
    calculate op_divide a b log =
      (Normal {| content := [text_item (VStr "0")] |}, log).
Proof.
  intros a b log Ha Hp Hn Hnan.
  unfold calculate.
  destruct (PrimFloat.eqb b 0) eqn:E.
  { apply strict_eq_zero in E. tauto. }
  destruct (float_div_zero a b Ha Hp Hn Hnan) as [s Hs].
  cbn. unfold number_toString. now rewrite Hs.
Qed.

Lemma calculate_divide_zero_numerator_witness :
  calculate op_divide 0 (-5) [] =
    (Normal {| content := [text_item (VStr "0")] |}, []).
Proof.
  apply (calculate_divide_zero_numerator 0 (-5) []).
  - left. reflexivity.
  - apply float_neq_by_rendering. vm_compute. discriminate.
  - apply float_neq_by_rendering. vm_compute. discriminate.
  - apply float_neq_by_rendering. vm_compute. discriminate.
Defined.

(** X16.  [calculate] returns the divide-by-zero notice in one case only:
    operation [divide] with a divisor that is a zero.  No sum, difference,
    product or quotient is rendered as the notice. *)
Theorem calculate_notice_iff :
  forall operation a b log,
    fst (calculate operation a b log) =
      Normal {| content := [text_item (VStr "Error: Cannot divide by zero")] |}
    <-> operation = op_divide /\ (b = 0%float \/ b = (-0)%float).
Proof.
  intros operation a b log. split.
  - intros H.
    destruct operation;
      try (cbn in H; injection H as H;
           now apply number_toString_not_notice in H).
    split; [reflexivity|].
    unfold calculate in H.
    destruct (PrimFloat.eqb b 0) eqn:E; [now apply strict_eq_zero|].
    cbn in H. injection H as H. now apply number_toString_not_notice in H.
  - intros [-> Hz]. apply strict_eq_zero in Hz.
    unfold calculate. now rewrite Hz.
Qed.

(** X17.  [extract_product_price] returns an empty text in one situation
    only: a successful response whose [price] is an array (the empty array,
    or one whose elements all render as empty).  Every other path returns a
    non-empty text. *)
Theorem extract_product_price_empty_text_only_for_arrays :
  forall key transport productUrl log,
    fst (extract_product_price key transport productUrl log) =
      Normal {| content := [text_item (VStr "")] |} ->
    exists r extractedData elems,
      transport log (extract_request key productUrl) = Outbound.Resolved r
      /\ Outbound.ok r = true
      /\ Outbound.json r = Some extractedData
      /\ extracted_price extractedData = Normal (VArr elems).
Proof.
  intros key transport productUrl log H.
  destruct (not_set key) eqn:Hkey.
  { unfold extract_product_price in H. rewrite Hkey in H. discriminate H. }
  destruct (transport log (extract_request key productUrl)) as [|r] eqn:Hr.
  { unfold extract_product_price, Async.try_catch, Async.bind, Async.fetch in H.
    rewrite Hkey, Hr in H. discriminate H. }
  rewrite (extract_product_price_settled key transport log Hkey productUrl r Hr) in H.
  cbn [fst] in H.
  destruct (Outbound.ok r) eqn:Hok; [|discriminate H]. cbn [negb] in H.
  destruct (Outbound.json r) as [d|] eqn:Hj; [|discriminate H].
  destruct (extracted_price d) as [x|] eqn:Hx; [|discriminate H].
  exists r, d.
  unfold or_else in H.
  destruct x as [ | |[|]|n|s|elems|props]; cbn [truthy] in H;
    try discriminate H.
  - destruct (negb _); cbn in H; [|discriminate H].
    injection H as H. now apply number_toString_nonempty in H.
  - destruct s; cbn in H; discriminate H.
  - eauto.
  - cbn in H. destruct (own_property "toString" props); discriminate H.
Qed.

Lemma extract_product_price_empty_text_only_for_arrays_witness :
  exists r extractedData elems,
    scripted [respond 200 (extract_doc (VArr []))] []
      (extract_request (Some "fc-key") "https://example.com/p/123") = Outbound.Resolved r
    /\ Outbound.ok r = true
    /\ Outbound.json r = Some extractedData
    /\ extracted_price extractedData = Normal (VArr elems).
Proof.
  apply (extract_product_price_empty_text_only_for_arrays (Some "fc-key")
           (scripted [respond 200 (extract_doc (VArr []))])
           "https://example.com/p/123" []).
  reflexivity.
Defined.
